(** * Full-stack todo backend: token lifecycle and per-user isolation

    A shallow embedding of the backend under
    [fullstack-todo-app/backend/app]: the keyword extractor
    ([utils/auto_tags.py]), the todo service ([services/todo_service.py]),
    the token issuer/verifier ([security/jwt.py]), the authentication
    service ([services/auth_service.py]) and the response envelope
    ([models/schemas.py], [middleware/error_handler.py], [api/v1]).

    Conventions.
    - A Python [str] is a list of Unicode code points ([str]); literals of
      the program are embedded with [lit].
    - A [datetime] is a count of microseconds since the epoch ([Z]).
    - A table is the list of its rows; the primary key is the hypothesis
      [primary_key].
    - A raised exception is the [Raise] branch of [result]; a request
      that raises leaves the tables as they were ([get_db_session] rolls
      the session back). *)

From Stdlib Require Import ZArith NArith Ascii String.
From stdpp Require Import base decidable option numbers list sorting gmap.

Local Open Scope Z_scope.

(** ** Python strings *)

Abbreviation char := N.
Abbreviation str := (list char).

Definition lit (s : string) : str :=
  (λ a, N_of_ascii a) <$> list_ascii_of_string s.
Arguments lit : simpl never.

(** [x < y] and [x <= y] on strings: lexicographic on code points. *)
Fixpoint str_leb (x y : str) : bool :=
  match x, y with
  | [], _ => true
  | _ :: _, [] => false
  | a :: x', b :: y' =>
      if (a <? b)%N then true
      else if (b <? a)%N then false
      else str_leb x' y'
  end.

Definition str_le (x y : str) : Prop := str_leb x y = true.

#[global] Instance str_le_dec : RelDecision str_le.
Proof. intros x y. unfold str_le. apply _. Defined.

(** [sub in s] for strings: [sub] occurs as a contiguous run of [s]. *)
Fixpoint is_prefix (p s : str) : bool :=
  match p, s with
  | [], _ => true
  | _ :: _, [] => false
  | a :: p', b :: s' => (a =? b)%N && is_prefix p' s'
  end.

Fixpoint str_in (sub s : str) : bool :=
  is_prefix sub s ||
  match s with
  | [] => false
  | _ :: s' => str_in sub s'
  end.

(** [x in l] for a list or a set of strings. *)
Definition mem (x : str) (l : list str) : bool := bool_decide (x ∈ l).

(** The part of the Unicode character database the program consults:
    [str.lower()], [str.isalnum()] on one character, and the white space
    on which [str.split()] cuts. *)
Class UnicodeDB := {
  lower : str → str;
  isalnum : char → bool;
  isspace : char → bool;
}.

(** [s.split()]: cut on runs of white space, no empty pieces. *)
Fixpoint split_go `{UnicodeDB} (cur : str) (s : str) : list str :=
  match s with
  | [] => if cur is [] then [] else [cur]
  | c :: s' =>
      if isspace c
      then (if cur is [] then split_go [] s' else cur :: split_go [] s')
      else split_go (cur ++ [c]) s'
  end.

Definition split `{UnicodeDB} (s : str) : list str := split_go [] s.

(** The database restricted to ASCII, for running the model. *)
Definition ascii_lower_char (c : char) : char :=
  if ((65 <=? c) && (c <=? 90))%N then (c + 32)%N else c.

Definition ascii_isalnum (c : char) : bool :=
  (((48 <=? c) && (c <=? 57)) || ((65 <=? c) && (c <=? 90))
   || ((97 <=? c) && (c <=? 122)))%N.

Definition ascii_isspace (c : char) : bool :=
  (((9 <=? c) && (c <=? 13)) || ((28 <=? c) && (c <=? 32)))%N.

Definition ascii_db : UnicodeDB := {|
  lower := fmap ascii_lower_char;
  isalnum := ascii_isalnum;
  isspace := ascii_isspace;
|}.

(** ** Exceptions ([utils/exceptions.py], [security/jwt.py]) *)

Inductive exn :=
  | AuthenticationError (message : str)
  | AuthorizationError (message : str)
  | NotFoundError (message : str)
  | ConflictError (message : str)
  | ValidationError (message : str)
  | TokenError (message : str)
    (** any exception that is not an [AppException] nor a [TokenError]:
        [AttributeError], [IntegrityError], [MultipleResultsFound], ... *)
  | OtherException (name : str).

#[global] Instance exn_eq_dec : EqDecision exn.
Proof. solve_decision. Defined.

(** [exc.status_code] of an [AppException]. *)
Definition status_code (e : exn) : option Z :=
  match e with
  | AuthenticationError _ => Some 401
  | AuthorizationError _ => Some 403
  | NotFoundError _ => Some 404
  | ConflictError _ => Some 409
  | ValidationError _ => Some 400
  | TokenError _ | OtherException _ => None
  end.

(** [exc.message] of an [AppException]. *)
Definition message (e : exn) : option str :=
  match e with
  | AuthenticationError m | AuthorizationError m | NotFoundError m
  | ConflictError m | ValidationError m => Some m
  | TokenError _ | OtherException _ => None
  end.

Inductive result (A : Type) :=
  | Ok (a : A)
  | Raise (e : exn).
Arguments Ok {A} a.
Arguments Raise {A} e.

#[global] Instance result_ret : MRet result := λ A a, Ok a.
#[global] Instance result_bind : MBind result := λ A B f m,
  match m with
  | Ok a => f a
  | Raise e => Raise e
  end.

Definition is_ok {A} (r : result A) : bool :=
  match r with Ok _ => true | Raise _ => false end.

(** ** Identities and enums ([models/enums.py]) *)

(** A [UUID] is its 128-bit integer. *)
Abbreviation UUID := N.
Abbreviation datetime := Z.

Inductive TodoStatus := PENDING | IN_PROGRESS | COMPLETED.
Inductive Priority := LOW | MEDIUM | HIGH.

#[global] Instance TodoStatus_eq_dec : EqDecision TodoStatus.
Proof. solve_decision. Defined.
#[global] Instance Priority_eq_dec : EqDecision Priority.
Proof. solve_decision. Defined.

(** The [.value] of a member; the columns store these strings. *)
Definition TodoStatus_value (s : TodoStatus) : str :=
  match s with
  | PENDING => lit "pending"
  | IN_PROGRESS => lit "in_progress"
  | COMPLETED => lit "completed"
  end.

Definition Priority_value (p : Priority) : str :=
  match p with
  | LOW => lit "low"
  | MEDIUM => lit "medium"
  | HIGH => lit "high"
  end.

(** ** Keyword extractor ([utils/auto_tags.py]) *)

Module AutoTags.

Local Open Scope string_scope.

Definition STOP_WORDS : list str := lit <$> [
"a"; "an"; "the"; "and"; "or"; "but"; "in"; "on"; "at"; "to"; "for";
"of"; "with"; "by"; "from"; "is"; "it"; "this"; "that"; "are"; "was";
"be"; "have"; "has"; "had"; "do"; "does"; "did"; "will"; "would";
"could"; "should"; "may"; "might"; "can"; "shall"; "not"; "no"; "so";
"if"; "then"; "than"; "too"; "very"; "just"; "about"; "up"; "out";
"all"; "also"; "as"; "into"; "some"; "my"; "your"; "our"; "their";
"its"; "been"; "being"; "get"; "got"; "make"; "need"; "want"; "know";
"take"; "come"; "going"; "thing"; "things"; "like"; "more"; "only";
"over"; "such"; "after"; "before"; "between"; "each"; "every"; "own";
"same"; "other"; "which"; "when"; "where"; "what"; "who"; "how";
"new"; "now"; "way"; "still"; "use"; "here"; "there" ].

(** The dict keeps insertion order; the categories are tried in it. *)
Definition CATEGORY_KEYWORDS : list (str * list str) :=
(λ ck : string * list string, (lit ck.1, lit <$> ck.2)) <$> [
("work", [
   "meeting"; "project"; "deadline"; "client"; "presentation";
   "report"; "office"; "team"; "manager"; "colleague"; "email";
   "review"; "sprint"; "standup"; "stakeholder"; "deliverable";
   "proposal"; "contract"; "invoice"; "milestone" ]);
("personal", [
   "family"; "friend"; "birthday"; "gift"; "hobby"; "vacation";
   "travel"; "home"; "house"; "apartment"; "pet"; "dog"; "cat";
   "party"; "wedding"; "anniversary"; "dinner"; "lunch" ]);
("finance", [
   "budget"; "payment"; "invoice"; "tax"; "salary"; "expense";
   "invest"; "investment"; "bank"; "loan"; "mortgage"; "insurance";
   "bill"; "receipt"; "savings"; "financial"; "accounting"; "refund" ]);
("health", [
   "doctor"; "appointment"; "exercise"; "gym"; "workout"; "run";
   "yoga"; "meditation"; "diet"; "nutrition"; "medicine";
   "prescription"; "hospital"; "dentist"; "therapy"; "mental";
   "sleep"; "wellness"; "checkup"; "vitamin" ]);
("learning", [
   "study"; "course"; "book"; "read"; "reading"; "learn"; "training";
   "tutorial"; "lecture"; "exam"; "test"; "homework"; "assignment";
   "research"; "certificate"; "class"; "workshop"; "seminar";
   "practice"; "skill" ]);
("tech", [
   "code"; "coding"; "programming"; "deploy"; "deployment"; "server";
   "database"; "api"; "bug"; "fix"; "debug"; "update"; "upgrade";
   "install"; "configure"; "setup"; "backup"; "security"; "test";
   "testing"; "release"; "feature"; "software"; "app"; "website" ]);
("urgent", [
   "urgent"; "asap"; "immediately"; "critical"; "emergency";
   "important"; "priority"; "rush"; "hurry"; "overdue" ]);
("shopping", [
   "buy"; "purchase"; "order"; "shop"; "shopping"; "grocery";
   "groceries"; "store"; "amazon"; "delivery" ]);
("errands", [
   "pickup"; "dropoff"; "return"; "mail"; "post"; "laundry";
   "clean"; "cleaning"; "repair"; "maintenance"; "renew" ]) ].

Local Close Scope string_scope.

Section extract.
Context `{UnicodeDB}.

(** [text]: the lowered title, then a space and the lowered
  description when the description is neither [None] nor empty. *)
Definition tag_text (title : str) (description : option str) : str :=
match description with
| Some (c :: d) => lower title ++ lit " " ++ lower (c :: d)
| Some [] | None => lower title
end.

(** The [words] set, as its elements in first-occurrence order. *)
Fixpoint collect_words (ws : list str) (words : list str) : list str :=
match ws with
| [] => words
| word :: ws' =>
    let cleaned := filter (λ c, isalnum c = true) word in
    if negb (bool_decide (cleaned = [])) &&
       negb (mem cleaned STOP_WORDS) && negb (mem cleaned words)
    then collect_words ws' (words ++ [cleaned])
    else collect_words ws' words
end.

(** [words & keywords] is not empty. *)
Definition intersects (words keywords : list str) : bool :=
existsb (λ w, mem w keywords) words.

Definition matched_categories (words : list str) : list str :=
fst <$> filter (λ ck, intersects words ck.2 = true) CATEGORY_KEYWORDS.

Definition significant_words (words : list str) : list str :=
merge_sort str_le
  (filter (λ w, (4 <=? length w)%nat && negb (mem w STOP_WORDS) = true)
          words).

(** The loop that appends to [tags], leaving at the [break]. *)
Fixpoint build_tags (matched : list str) (ws : list str) (tags : list str)
: list str :=
match ws with
| [] => tags
| word :: ws' =>
    let tags' :=
      if negb (mem word tags) &&
         negb (existsb (λ kw, str_in word kw) matched)
      then tags ++ [word] else tags in
    if (5 <=? length tags')%nat then tags'
    else build_tags matched ws' tags'
end.

Definition extract_tags (title : str) (description : option str)
: list str :=
let words := collect_words (split (tag_text title description)) [] in
let matched := matched_categories words in
take 5 (build_tags matched (significant_words words) matched).

End extract.

End AutoTags.

(** ** Rows and request schemas ([models/todo.py], [models/schemas.py]) *)

Module Todo.
Record t := mk {
  id : UUID;
  user_id : UUID;
  title : str;
  description : option str;
  status : TodoStatus;
  priority : Priority;
  due_date : option datetime;
  tags : list str;
  created_at : datetime;
  updated_at : datetime;
  deleted_at : option datetime;
}.

#[global] Instance eq_dec : EqDecision t.
Proof. solve_decision. Defined.

Definition is_deleted (todo : t) : bool :=
  bool_decide (deleted_at todo ≠ None).
End Todo.

Module TodoCreate.
Record t := mk {
  title : str;
  description : option str;
  status : TodoStatus;
  priority : Priority;
  due_date : option datetime;
}.

(** [Field(min_length=1, max_length=255)] on [title]: pydantic builds
    no [TodoCreate] that fails it. *)
Definition valid (data : t) : bool :=
  (1 <=? length (title data))%nat && (length (title data) <=? 255)%nat.
End TodoCreate.

(** A field of a partial update: left out of the request ([Unset]) or
    carried by it ([Given v]); every field of [TodoUpdate] has type
    [... | None], so a carried value may be [None] (JSON [null]). *)
Inductive supplied (A : Type) :=
  | Unset
  | Given (v : A).
Arguments Unset {A}.
Arguments Given {A} v.

Definition is_given {A} (f : supplied A) : bool :=
  match f with Unset => false | Given _ => true end.

Module TodoUpdate.
Record t := mk {
  title : supplied (option str);
  description : supplied (option str);
  status : supplied (option TodoStatus);
  priority : supplied (option Priority);
  due_date : supplied (option datetime);
}.

(** [Field(default=None, min_length=1, max_length=255)] on [title]:
    the length bounds are checked on a string, not on [None]. *)
Definition valid (data : t) : bool :=
  match title data with
  | Given (Some s) => (1 <=? length s)%nat && (length s <=? 255)%nat
  | Given None | Unset => true
  end.
End TodoUpdate.

Module TodoResponse.
Record t := mk {
  id : UUID;
  user_id : UUID;
  title : str;
  description : option str;
  status : TodoStatus;
  priority : Priority;
  due_date : option datetime;
  tags : list str;
  created_at : datetime;
  updated_at : datetime;
}.

Definition model_validate (todo : Todo.t) : t := {|
  id := Todo.id todo;
  user_id := Todo.user_id todo;
  title := Todo.title todo;
  description := Todo.description todo;
  status := Todo.status todo;
  priority := Todo.priority todo;
  due_date := Todo.due_date todo;
  tags := Todo.tags todo;
  created_at := Todo.created_at todo;
  updated_at := Todo.updated_at todo;
|}.
End TodoResponse.

Module PaginatedData.
Record t := mk {
  items : list TodoResponse.t;
  page : Z;
  per_page : Z;
  total : Z;
  total_pages : Z;
}.
End PaginatedData.

(** ** The todos table and the queries on it *)

Abbreviation table := (list Todo.t).

(** The primary key of [todos]: no two rows share an [id]. *)
Definition primary_key (s : table) : Prop := NoDup (Todo.id <$> s).

(** [result.scalar_one_or_none()]. *)
Definition scalar_one_or_none {A} (rows : list A) : result (option A) :=
  match rows with
  | [] => Ok None
  | [row] => Ok (Some row)
  | _ => Raise (OtherException (lit "MultipleResultsFound"))
  end.

(** The row written back at [flush]: the row of the same [id] is
    replaced. *)
Definition write_row (s : table) (todo : Todo.t) : table :=
  (λ row, if decide (Todo.id row = Todo.id todo) then todo else row) <$> s.

(** The values the listing endpoint lets through to the service: its
    [Query] patterns admit [today|upcoming] for [due],
    [created_at|due_date|priority] for [sort_by] and [asc|desc] for
    [sort_order]. *)
Inductive due_filter := DueToday | DueUpcoming.
Inductive sort_field := SortCreatedAt | SortDueDate | SortPriority.
Inductive sort_direction := Asc | Desc.

(** [datetime.combine(date.today(), time.min / time.max, tzinfo=utc)],
    [today] being the day number of [date.today()]. *)
Definition microseconds_per_day : Z := 86400 * 1000000.
Definition today_start (today : Z) : datetime := today * microseconds_per_day.
Definition today_end (today : Z) : datetime :=
  today * microseconds_per_day + (microseconds_per_day - 1).

(** [ORDER BY column ASC]: a NULL due date sorts after every date, and
    the priority column holds the strings of [Priority_value]. *)
Definition option_time_leb (a b : option datetime) : bool :=
  match a, b with
  | _, None => true
  | None, Some _ => false
  | Some x, Some y => x <=? y
  end.

Definition row_leb (by_ : sort_field) (a b : Todo.t) : bool :=
  match by_ with
  | SortCreatedAt => Todo.created_at a <=? Todo.created_at b
  | SortDueDate => option_time_leb (Todo.due_date a) (Todo.due_date b)
  | SortPriority =>
      str_leb (Priority_value (Todo.priority a))
              (Priority_value (Todo.priority b))
  end.

Definition row_le (by_ : sort_field) (a b : Todo.t) : Prop :=
  row_leb by_ a b = true.

#[global] Instance row_le_dec by_ : RelDecision (row_le by_).
Proof. intros a b. unfold row_le. apply _. Defined.

Definition order_by (by_ : sort_field) (dir : sort_direction) (rows : table)
  : table :=
  match dir with
  | Desc => merge_sort (flip (row_le by_)) rows
  | Asc => merge_sort (row_le by_) rows
  end.

(** ** Todo service ([services/todo_service.py]) *)

Module TodoService.
Section service.
Context `{UnicodeDB}.

(** [new_id] is the draw of [uuid4()] and [now] the clock read by the
  timestamp defaults; the insert fails on a taken primary key. *)
Definition create_todo (s : table) (user_id : UUID) (data : TodoCreate.t)
  (new_id : UUID) (now : datetime) : result (table * Todo.t) :=
let tags := AutoTags.extract_tags (TodoCreate.title data)
                                  (TodoCreate.description data) in
let todo := {|
  Todo.id := new_id;
  Todo.user_id := user_id;
  Todo.title := TodoCreate.title data;
  Todo.description := TodoCreate.description data;
  Todo.status := TodoCreate.status data;
  Todo.priority := TodoCreate.priority data;
  Todo.due_date := TodoCreate.due_date data;
  Todo.tags := tags;
  Todo.created_at := now;
  Todo.updated_at := now;
  Todo.deleted_at := None;
|} in
if bool_decide (new_id ∈ Todo.id <$> s)
then Raise (OtherException (lit "IntegrityError"))
else Ok (s ++ [todo], todo).

Definition get_todo (s : table) (todo_id user_id : UUID) : result Todo.t :=
todo ← scalar_one_or_none
  (filter (λ row, Todo.id row = todo_id
                  ∧ Todo.user_id row = user_id
                  ∧ Todo.deleted_at row = None) s);
match todo with
| None => Raise (NotFoundError (lit "Todo not found"))
| Some todo => Ok todo
end.

(** The [WHERE] clause of the listing. *)
Definition list_where (user_id : UUID) (status : option TodoStatus)
  (priority : option Priority) (due : option due_filter) (today : Z)
  (row : Todo.t) : Prop :=
Todo.user_id row = user_id
∧ Todo.deleted_at row = None
∧ (if status is Some st then Todo.status row = st else True)
∧ (if priority is Some pr then Todo.priority row = pr else True)
∧ match due with
  | Some DueToday =>
      match Todo.due_date row with
      | Some d => today_start today ≤ d ∧ d ≤ today_end today
      | None => False
      end
  | Some DueUpcoming =>
      match Todo.due_date row with
      | Some d => today_end today < d
      | None => False
      end
  | None => True
  end.

#[global] Instance list_where_dec user_id status priority due today row :
Decision (list_where user_id status priority due today row).
Proof.
unfold list_where.
destruct status, priority, due as [[]|], (Todo.due_date row); apply _.
Defined.

(** The database refuses a negative [OFFSET] or [LIMIT]; Python raises
  [ZeroDivisionError] on [// 0]. *)
Definition list_todos (s : table) (user_id : UUID) (page per_page : Z)
  (status : option TodoStatus) (priority : option Priority)
  (due : option due_filter) (sort_by : sort_field)
  (sort_order : sort_direction) (today : Z) : result PaginatedData.t :=
let base_query :=
  filter (list_where user_id status priority due today) s in
let total := Z.of_nat (length base_query) in
let sorted := order_by sort_by sort_order base_query in
let offset := (page - 1) * per_page in
if (offset <? 0) || (per_page <? 0)
then Raise (OtherException (lit "DBAPIError"))
else
  let todos := take (Z.to_nat per_page) (drop (Z.to_nat offset) sorted) in
  total_pages ←
    (if 0 <? total
     then (if per_page =? 0
           then Raise (OtherException (lit "ZeroDivisionError"))
           else Ok ((total + per_page - 1) `div` per_page))
     else Ok 0);
  Ok {|
    PaginatedData.items := TodoResponse.model_validate <$> todos;
    PaginatedData.page := page;
    PaginatedData.per_page := per_page;
    PaginatedData.total := total;
    PaginatedData.total_pages := total_pages;
  |}.

(** [setattr(todo, field, value)] for a field of the update. *)
Definition setattr {A} (current : A) (field : supplied A) : A :=
match field with
| Unset => current
| Given value => value
end.

(** After the [setattr] loop an attribute holds [None] when the request
  carried [null] for it. [extract_tags] then fails on [None.lower()]
  ([AttributeError]); a [None] in a NOT NULL column fails the flush
  ([IntegrityError]). *)
Definition update_todo (s : table) (todo_id user_id : UUID)
  (data : TodoUpdate.t) (now : datetime) : result (table * Todo.t) :=
todo ← get_todo s todo_id user_id;
let title := setattr (Some (Todo.title todo)) (TodoUpdate.title data) in
let description :=
  setattr (Todo.description todo) (TodoUpdate.description data) in
let status := setattr (Some (Todo.status todo)) (TodoUpdate.status data) in
let priority :=
  setattr (Some (Todo.priority todo)) (TodoUpdate.priority data) in
let due_date := setattr (Todo.due_date todo) (TodoUpdate.due_date data) in
tags ←
  (if is_given (TodoUpdate.title data)
      || is_given (TodoUpdate.description data)
   then match title with
        | Some title => Ok (AutoTags.extract_tags title description)
        | None => Raise (OtherException (lit "AttributeError"))
        end
   else Ok (Todo.tags todo));
match title, status, priority with
| Some title, Some status, Some priority =>
    let todo' := {|
      Todo.id := Todo.id todo;
      Todo.user_id := Todo.user_id todo;
      Todo.title := title;
      Todo.description := description;
      Todo.status := status;
      Todo.priority := priority;
      Todo.due_date := due_date;
      Todo.tags := tags;
      Todo.created_at := Todo.created_at todo;
      Todo.updated_at := now;
      Todo.deleted_at := Todo.deleted_at todo;
    |} in
    Ok (write_row s todo', todo')
| _, _, _ => Raise (OtherException (lit "IntegrityError"))
end.

(** [now] is the clock read for [deleted_at]; [flushed_at] is the
  reading of the [onupdate] default of [updated_at], which the flush
  applies because the method does not set that column. *)
Definition soft_delete_todo (s : table) (todo_id user_id : UUID)
  (now flushed_at : datetime) : result table :=
todo ← get_todo s todo_id user_id;
let todo' := {|
  Todo.id := Todo.id todo;
  Todo.user_id := Todo.user_id todo;
  Todo.title := Todo.title todo;
  Todo.description := Todo.description todo;
  Todo.status := Todo.status todo;
  Todo.priority := Todo.priority todo;
  Todo.due_date := Todo.due_date todo;
  Todo.tags := Todo.tags todo;
  Todo.created_at := Todo.created_at todo;
  Todo.updated_at := flushed_at;
  Todo.deleted_at := Some now;
|} in
Ok (write_row s todo').

End service.
End TodoService.

(** ** UUID strings (the [uuid] module) *)

Definition valid_uuid (u : UUID) : Prop := (u < 2 ^ 128)%N.

Definition hex_digit (d : N) : char :=
  if (d <? 10)%N then (48 + d)%N else (87 + d)%N.

(** ['%0wx' % n], lowest [w] hexadecimal digits. *)
Fixpoint hex_fixed (w : nat) (n : N) : str :=
  match w with
  | O => []
  | S w' => hex_fixed w' (n `div` 16)%N ++ [hex_digit (n `mod` 16)%N]
  end.

Definition slice (a b : nat) (s : str) : str := take (b - a) (drop a s).

(** [str(uuid)]: the 32 digits of ['%032x' % int], cut 8-4-4-4-12. *)
Definition UUID_str (u : UUID) : str :=
  let h := hex_fixed 32 u in
  take 8 h ++ lit "-" ++ slice 8 12 h ++ lit "-" ++ slice 12 16 h
  ++ lit "-" ++ slice 16 20 h ++ lit "-" ++ drop 20 h.

(** [s.replace(old, '')]: [skip] counts the characters of a match still
    to drop. *)
Fixpoint remove_go (old : str) (skip : nat) (s : str) : str :=
  match s with
  | [] => []
  | c :: s' =>
      match skip with
      | S k => remove_go old k s'
      | O =>
          if is_prefix old (c :: s') && negb (bool_decide (old = []))
          then remove_go old (length old - 1) s'
          else c :: remove_go old 0 s'
      end
  end.

Definition str_remove (old s : str) : str := remove_go old 0 s.

(** [s.strip(chars)]. *)
Fixpoint lstrip (chars : str) (s : str) : str :=
  match s with
  | [] => []
  | c :: s' => if bool_decide (c ∈ chars) then lstrip chars s' else s
  end.

Definition strip (chars : str) (s : str) : str :=
  reverse (lstrip chars (reverse (lstrip chars s))).

Definition hex_value (c : char) : option N :=
  if ((48 <=? c) && (c <=? 57))%N then Some (c - 48)%N
  else if ((97 <=? c) && (c <=? 102))%N then Some (c - 87)%N
  else if ((65 <=? c) && (c <=? 70))%N then Some (c - 55)%N
  else None.

(** [int(s, 16)] on a run of hexadecimal digits; [None] is [ValueError].
    The signs, prefixes, underscores and blanks that [int] also accepts
    are refused here; no string [UUID_str] produces has them. *)
Definition int_hex (s : str) : option N :=
  foldl (λ acc c, n ← acc; d ← hex_value c; Some (16 * n + d)%N) (Some 0%N) s.

(** [UUID(hex)]; [None] is [ValueError]. *)
Definition UUID_parse (hex : str) : option UUID :=
  let hex := str_remove (lit "uuid:") (str_remove (lit "urn:") hex) in
  let hex := filter (λ c, c ≠ 45%N) (strip (lit "{}") hex) in
  if bool_decide (length hex = 32%nat) then int_hex hex else None.

(** ** JSON Web Tokens

    [jose.jwt] is a dependency, not code of the repository. Its compact
    serialisation is kept abstract: a token string either parses to a
    header algorithm, a claim set and a signature, or it does not; the
    MAC is any function of algorithm, key and claim set. *)

Inductive value :=
  | VStr (s : str)
  | VInt (n : Z)
  | VDatetime (t : datetime).

#[global] Instance value_eq_dec : EqDecision value.
Proof. solve_decision. Defined.

Class JOSE := {
  signature : Type;
  signature_eq_dec :: EqDecision signature;
  sign : str → str → gmap str value → signature;
}.

Inductive token `{JOSE} :=
  | Malformed (text : str)
  | Compact (alg : str) (claims : gmap str value) (sig : signature).

(** [timegm(t.utctimetuple())]: whole seconds. *)
Definition timegm (t : datetime) : Z := t `div` 1000000.

Definition time_claims : list str := [lit "exp"; lit "iat"; lit "nbf"].

Section jose.
Context `{JOSE}.

(** [jwt.encode]: the [datetime] values of the time claims become
    integers, then the claim set is signed. *)
Definition encode_claims (claims : gmap str value) : gmap str value :=
  map_imap (λ k v,
    match v with
    | VDatetime t => if mem k time_claims then Some (VInt (timegm t))
                     else Some v
    | _ => Some v
    end) claims.

Definition jwt_encode (claims : gmap str value) (key algorithm : str)
  : token :=
  let claims := encode_claims claims in
  Compact algorithm claims (sign algorithm key claims).

(** The checks of [_validate_claims] the tokens of this program can
    meet, each giving the text of its [JWTClaimsError], if any. *)
Definition validate_iat (claims : gmap str value) : option str :=
  match claims !! lit "iat" with
  | Some (VInt _) | None => None
  | Some _ => Some (lit "Issued At claim (iat) must be an integer.")
  end.

Definition validate_exp (now : datetime) (claims : gmap str value)
  : option str :=
  match claims !! lit "exp" with
  | None => None
  | Some (VInt exp) =>
      if exp <? timegm now then Some (lit "Signature has expired.")
      else None
  | Some _ => Some (lit "Expiration Time claim (exp) must be an integer.")
  end.

Definition validate_sub (claims : gmap str value) : option str :=
  match claims !! lit "sub" with
  | Some (VStr _) | None => None
  | Some _ => Some (lit "Subject must be a string.")
  end.

Definition validate_jti (claims : gmap str value) : option str :=
  match claims !! lit "jti" with
  | Some (VStr _) | None => None
  | Some _ => Some (lit "JWT ID must be a string.")
  end.

(** [jwt.decode]: the algorithm, the signature, then the claims; the
    left branch carries the text of the [JWTError]. *)
Definition jwt_decode (now : datetime) (tok : token) (key : str)
    (algorithms : list str) : str + gmap str value :=
  match tok with
  | Malformed _ => inl (lit "Not enough segments")
  | Compact alg claims sig =>
      if negb (mem alg algorithms)
      then inl (lit "The specified alg value is not allowed")
      else if negb (bool_decide (sig = sign alg key claims))
      then inl (lit "Signature verification failed.")
      else
        match validate_iat claims ∪ validate_exp now claims
              ∪ validate_sub claims ∪ validate_jti claims with
        | Some error => inl error
        | None => inr claims
        end
  end.
End jose.

(** ** Settings ([config.py]) *)

Module Settings.
Record t := mk {
  jwt_secret_key : str;
  jwt_algorithm : str;
  access_token_expire_minutes : Z;
  refresh_token_expire_days : Z;
}.

Definition default : t := {|
  jwt_secret_key := lit "your-256-bit-secret-key-here-minimum-32-chars";
  jwt_algorithm := lit "HS256";
  access_token_expire_minutes := 15;
  refresh_token_expire_days := 7;
|}.
End Settings.

(** ** Token issuer and verifier ([security/jwt.py]) *)

Module Jwt.
Section jwt.
Context `{JOSE} (settings : Settings.t).

(** [timedelta(minutes=m)] and [timedelta(days=d)] in microseconds. *)
Definition minutes (m : Z) : Z := m * 60 * 1000000.
Definition days (d : Z) : Z := d * 86400 * 1000000.

(** [now] is the clock read for the expiry and [issued_at] the second
  reading, for [iat]. *)
Definition access_expire (now : datetime) : datetime :=
now + minutes (Settings.access_token_expire_minutes settings).

Definition access_payload (now issued_at : datetime) (user_id : UUID)
: gmap str value :=
list_to_map [
  (lit "sub", VStr (UUID_str user_id));
  (lit "type", VStr (lit "access"));
  (lit "exp", VDatetime (access_expire now));
  (lit "iat", VDatetime issued_at) ].

Definition create_access_token (now issued_at : datetime) (user_id : UUID)
: token :=
jwt_encode (access_payload now issued_at user_id)
           (Settings.jwt_secret_key settings)
           (Settings.jwt_algorithm settings).

Definition refresh_expire (now : datetime) : datetime :=
now + days (Settings.refresh_token_expire_days settings).

(** [jti] is the draw of [uuid4()]. *)
Definition refresh_payload (now issued_at : datetime) (jti : UUID)
  (user_id : UUID) : gmap str value :=
list_to_map [
  (lit "sub", VStr (UUID_str user_id));
  (lit "type", VStr (lit "refresh"));
  (lit "jti", VStr (UUID_str jti));
  (lit "exp", VDatetime (refresh_expire now));
  (lit "iat", VDatetime issued_at) ].

Definition create_refresh_token (now issued_at : datetime) (jti : UUID)
  (user_id : UUID) : token :=
jwt_encode (refresh_payload now issued_at jti user_id)
           (Settings.jwt_secret_key settings)
           (Settings.jwt_algorithm settings).

(** [not payload.get(key)]. *)
Definition falsy (v : option value) : bool :=
match v with
| None | Some (VStr []) | Some (VInt 0) => true
| Some _ => false
end.

(** [now] is the clock [jwt.decode] compares [exp] with. *)
Definition verify_token (now : datetime) (tok : token) (token_type : str)
: result (gmap str value) :=
match jwt_decode now tok (Settings.jwt_secret_key settings)
                 [Settings.jwt_algorithm settings] with
| inl e => Raise (TokenError (lit "Invalid token: " ++ e))
| inr payload =>
    if bool_decide (payload !! lit "type" ≠ Some (VStr token_type))
    then Raise (TokenError
                  (lit "Invalid token type. Expected " ++ token_type))
    else if falsy (payload !! lit "sub")
    then Raise (TokenError (lit "Token missing subject claim"))
    else Ok payload
end.

Definition get_user_id_from_token (now : datetime) (tok : token)
  (token_type : str) : result UUID :=
payload ← verify_token now tok token_type;
match payload !! lit "sub" with
| Some (VStr sub) =>
    match UUID_parse sub with
    | Some user_id => Ok user_id
    | None => Raise (TokenError (lit "Invalid user ID in token"))
    end
| None => Raise (TokenError (lit "Invalid user ID in token"))
| Some _ => Raise (OtherException (lit "AttributeError"))
end.

End jwt.
End Jwt.

(** ** Users ([models/user.py], [services/user_service.py]) *)

Module User.
Record t := mk {
  id : UUID;
  email : str;
  username : str;
  password_hash : str;
  created_at : datetime;
  updated_at : datetime;
  deleted_at : option datetime;
}.

Definition is_deleted (user : t) : bool :=
  bool_decide (deleted_at user ≠ None).
End User.

Module UserResponse.
Record t := mk {
  id : UUID;
  email : str;
  username : str;
  created_at : datetime;
}.

Definition model_validate (user : User.t) : t := {|
  id := User.id user;
  email := User.email user;
  username := User.username user;
  created_at := User.created_at user;
|}.
End UserResponse.

Module SignupRequest.
Record t := mk { email : str; username : str; password : str }.
End SignupRequest.

Module LoginRequest.
Record t := mk { email : str; password : str }.
End LoginRequest.

Module UserUpdate.
Record t := mk { username : option str }.
End UserUpdate.

(** [security/password.py] is not among the sources: its two functions
    are parameters. [hash_password] draws a salt. *)
Class Password := {
  hash_password : str → str → str;
  verify_password : str → str → bool;
}.

Module UserService.
Section service.
Context `{UnicodeDB}.
Implicit Types (users : list User.t).

Definition get_by_id users (user_id : UUID) : result (option User.t) :=
scalar_one_or_none
  (filter (λ row, User.id row = user_id ∧ User.deleted_at row = None)
          users).

Definition get_by_email users (email : str) : result (option User.t) :=
scalar_one_or_none
  (filter (λ row, User.email row = lower email
                  ∧ User.deleted_at row = None) users).

Definition get_by_username users (username : str)
: result (option User.t) :=
scalar_one_or_none
  (filter (λ row, User.username row = username
                  ∧ User.deleted_at row = None) users).

(** The flush of a row that breaks the primary key or a unique index
  ([email], [username]) fails; the indexes cover soft-deleted rows. *)
Definition unique_violation users (user : User.t) (ignore : option UUID)
: bool :=
existsb (λ row,
  negb (bool_decide (ignore = Some (User.id row)))
  && (bool_decide (User.id row = User.id user)
      || bool_decide (User.email row = User.email user)
      || bool_decide (User.username row = User.username user))) users.

Definition create users (email username password_hash : str)
  (new_id : UUID) (now : datetime) : result (list User.t * User.t) :=
existing_email ← get_by_email users email;
if existing_email is Some _
then Raise (ConflictError (lit "Email already registered"))
else
  existing_username ← get_by_username users username;
  if existing_username is Some _
  then Raise (ConflictError (lit "Username already taken"))
  else
    let user := {|
      User.id := new_id;
      User.email := lower email;
      User.username := username;
      User.password_hash := password_hash;
      User.created_at := now;
      User.updated_at := now;
      User.deleted_at := None;
    |} in
    if unique_violation users user None
    then Raise (OtherException (lit "IntegrityError"))
    else Ok (users ++ [user], user).

Definition update_username users (user_id : UUID) (new_username : str)
  (flushed_at : datetime) : result (list User.t * User.t) :=
user ← get_by_id users user_id;
match user with
| None => Raise (NotFoundError (lit "User not found"))
| Some user =>
    existing ← get_by_username users new_username;
    if (if existing is Some other
        then bool_decide (User.id other ≠ user_id) else false)
    then Raise (ConflictError (lit "Username already taken"))
    else
      let user' := {|
        User.id := User.id user;
        User.email := User.email user;
        User.username := new_username;
        User.password_hash := User.password_hash user;
        User.created_at := User.created_at user;
        User.updated_at := flushed_at;
        User.deleted_at := User.deleted_at user;
      |} in
      if unique_violation users user' (Some (User.id user))
      then Raise (OtherException (lit "IntegrityError"))
      else Ok ((λ row, if decide (User.id row = User.id user)
                       then user' else row) <$> users, user')
end.
End service.
End UserService.

(** ** Authentication service ([services/auth_service.py]) *)

Module TokenData.
Record t `{JOSE} := mk { access_token : token; token_type : str }.
End TokenData.

(** What a request reads from outside the tables: clock readings, the
    draws of [uuid4()], the salt, the day of [date.today()] and the
    address of the client. *)
Module Env.
Record t := mk {
  now : datetime;
  issued_at : datetime;
  flushed_at : datetime;
  responded_at : datetime;
  today : Z;
  new_id : UUID;
  new_jti : UUID;
  salt : str;
  client_ip : str;
}.
End Env.

Module AuthService.
Section service.
Context `{UnicodeDB, JOSE, Password} (settings : Settings.t) (e : Env.t).
Implicit Types (users : list User.t).

Definition create_tokens (user_id : UUID) : TokenData.t * token :=
let access_token :=
  Jwt.create_access_token settings (Env.now e) (Env.issued_at e) user_id in
let refresh_token :=
  Jwt.create_refresh_token settings (Env.now e) (Env.issued_at e) (Env.new_jti e)
                           user_id in
(TokenData.mk _ access_token (lit "bearer"), refresh_token).

Definition register_user users (email username password : str)
: result (list User.t * (User.t * TokenData.t * token)) :=
let password_hash := hash_password (Env.salt e) password in
'(users', user) ←
  UserService.create users email username password_hash (Env.new_id e)
                     (Env.now e);
let '(token_data, refresh_token) := create_tokens (User.id user) in
Ok (users', (user, token_data, refresh_token)).

Definition authenticate_user users (email password : str)
: result (User.t * TokenData.t * token) :=
user ← UserService.get_by_email users email;
match user with
| None => Raise (AuthenticationError (lit "Invalid credentials"))
| Some user =>
    if negb (verify_password password (User.password_hash user))
    then Raise (AuthenticationError (lit "Invalid credentials"))
    else
      let '(token_data, refresh_token) := create_tokens (User.id user) in
      Ok (user, token_data, refresh_token)
end.

Definition refresh_tokens users (user_id : UUID)
: result (TokenData.t * token) :=
user ← UserService.get_by_id users user_id;
match user with
| None => Raise (AuthenticationError (lit "User not found"))
| Some user =>
    if User.is_deleted user
    then Raise (AuthenticationError (lit "User not found"))
    else Ok (create_tokens (User.id user))
end.
End service.
End AuthService.

(** ** Dependencies ([dependencies.py]) *)

Module Dependencies.
Section deps.
Context `{UnicodeDB, JOSE} (settings : Settings.t) (e : Env.t).

(** [credentials] is the bearer token [HTTPBearer] extracted. *)
Definition get_current_user (users : list User.t) (credentials : token)
: result User.t :=
match Jwt.get_user_id_from_token settings (Env.now e) credentials
        (lit "access") with
| Raise (TokenError message) => Raise (AuthenticationError message)
| Raise exc => Raise exc
| Ok user_id =>
    user ← UserService.get_by_id users user_id;
    match user with
    | None => Raise (AuthenticationError (lit "User not found"))
    | Some user =>
        if User.is_deleted user
        then Raise (AuthenticationError (lit "User not found"))
        else Ok user
    end
end.

(** The cookie is absent, or holds a string; the empty string is
  falsy as well. *)
Definition get_refresh_token_user_id (refresh_token : option token)
: result UUID :=
match refresh_token with
| None | Some (Malformed []) =>
    Raise (AuthenticationError (lit "Refresh token required"))
| Some refresh_token =>
    match Jwt.get_user_id_from_token settings (Env.now e) refresh_token
            (lit "refresh") with
    | Raise (TokenError message) => Raise (AuthenticationError message)
    | r => r
    end
end.
End deps.
End Dependencies.

(** ** Response envelope and endpoints ([models/schemas.py], [api/v1],
    [middleware/error_handler.py]) *)

Inductive payload `{JOSE} :=
  | TokenPayload (data : TokenData.t)
  | TodoPayload (data : TodoResponse.t)
  | PagePayload (data : PaginatedData.t)
  | UserPayload (data : UserResponse.t).

Module APIResponse.
Record t `{JOSE} := mk {
  success : bool;
  data : option payload;
  error : option str;
  timestamp : datetime;
}.
End APIResponse.

Inductive cookie_action `{JOSE} :=
  | KeepCookie
  | SetRefreshCookie (refresh_token : token)
  | ClearRefreshCookie.

(** [log_security_event]: the [extra] of the record and its level. *)
Module SecurityEvent.
Record t := mk {
  event_type : str;
  user_id : option str;
  ip_address : option str;
  success : bool;
  details : option str;
}.
End SecurityEvent.

Module Response.
Record t `{JOSE} := mk {
  status_code : Z;
  content : APIResponse.t;
  cookie : cookie_action;
  log : list SecurityEvent.t;
}.
End Response.

(** The two tables. *)
Module Db.
Record t := mk { users : list User.t; todos : table }.
End Db.

Inductive request `{JOSE} :=
  | Signup (data : SignupRequest.t)
  | Login (data : LoginRequest.t)
  | RefreshToken (refresh_token : option token)
  | Logout (credentials : token)
  | ListTodos (credentials : token) (page per_page : Z)
      (status : option TodoStatus) (priority : option Priority)
      (due : option due_filter) (sort_by : sort_field)
      (sort_order : sort_direction)
  | PostTodo (credentials : token) (data : TodoCreate.t)
  | GetTodo (credentials : token) (todo_id : UUID)
  | PatchTodo (credentials : token) (todo_id : UUID) (data : TodoUpdate.t)
  | DeleteTodo (credentials : token) (todo_id : UUID)
  | GetMe (credentials : token)
  | PatchMe (credentials : token) (data : UserUpdate.t).

Module Api.
Section api.
Context `{UnicodeDB, JOSE, Password} (settings : Settings.t) (e : Env.t).

(** [APIResponse(success=True, data=..., timestamp=now)]: [error]
  keeps its default, [None]. *)
Definition ok_response (data : option payload) : APIResponse.t :=
APIResponse.mk _ true data None (Env.responded_at e).

(** [log_security_event] with the address [_get_client_ip] found; a
  falsy argument is left out of the record. *)
Definition security_event (event_type : str) (user_id : option UUID)
  (success : bool) (details : option str) : SecurityEvent.t :=
SecurityEvent.mk event_type (UUID_str <$> user_id)
  (if Env.client_ip e is [] then None else Some (Env.client_ip e))
  success details.

(** What an endpoint leaves behind: the events it logged, and either
  its exception or the new tables, the status code of its decorator,
  the envelope and what it did to the refresh cookie. *)
Definition outcome : Type :=
list SecurityEvent.t * result (Db.t * Z * APIResponse.t * cookie_action).

Definition quiet (r : result (Db.t * Z * APIResponse.t * cookie_action))
: outcome := ([], r).

Definition signup (db : Db.t) (data : SignupRequest.t) : outcome :=
match AuthService.register_user settings e (Db.users db)
        (SignupRequest.email data) (SignupRequest.username data)
        (SignupRequest.password data) with
| Raise exc => ([], Raise exc)
| Ok (users, (user, token_data, refresh_token)) =>
    ([security_event (lit "signup") (Some (User.id user)) true None],
     Ok (Db.mk users (Db.todos db), 201,
         ok_response (Some (TokenPayload token_data)),
         SetRefreshCookie refresh_token))
end.

Definition login (db : Db.t) (data : LoginRequest.t) : outcome :=
match AuthService.authenticate_user settings e (Db.users db)
        (LoginRequest.email data) (LoginRequest.password data) with
| Raise exc =>
    ([security_event (lit "login") None false
        (Some (lit "Invalid credentials"))],
     Raise exc)
| Ok (user, token_data, refresh_token) =>
    ([security_event (lit "login") (Some (User.id user)) true None],
     Ok (db, 200, ok_response (Some (TokenPayload token_data)),
         SetRefreshCookie refresh_token))
end.

Definition refresh_token (db : Db.t) (cookie : option token) : outcome :=
quiet (
  user_id ← Dependencies.get_refresh_token_user_id settings e cookie;
  '(token_data, new_refresh_token) ←
    AuthService.refresh_tokens settings e (Db.users db) user_id;
  Ok (db, 200, ok_response (Some (TokenPayload token_data)),
      SetRefreshCookie new_refresh_token)).

Definition logout (db : Db.t) (credentials : token) : outcome :=
match Dependencies.get_current_user settings e (Db.users db)
        credentials with
| Raise exc => ([], Raise exc)
| Ok current_user =>
    ([security_event (lit "logout") (Some (User.id current_user)) true
        None],
     Ok (db, 200, ok_response None, ClearRefreshCookie))
end.

Definition list_todos (db : Db.t) (credentials : token) (page per_page : Z)
  (status : option TodoStatus) (priority : option Priority)
  (due : option due_filter) (sort_by : sort_field)
  (sort_order : sort_direction) : outcome :=
quiet (
  current_user ←
    Dependencies.get_current_user settings e (Db.users db) credentials;
  paginated_data ←
    TodoService.list_todos (Db.todos db) (User.id current_user) page
      per_page status priority due sort_by sort_order (Env.today e);
  Ok (db, 200, ok_response (Some (PagePayload paginated_data)),
      KeepCookie)).

Definition create_todo (db : Db.t) (credentials : token)
  (data : TodoCreate.t) : outcome :=
quiet (
  current_user ←
    Dependencies.get_current_user settings e (Db.users db) credentials;
  '(todos, todo) ←
    TodoService.create_todo (Db.todos db) (User.id current_user) data
      (Env.new_id e) (Env.now e);
  Ok (Db.mk (Db.users db) todos, 201,
      ok_response (Some (TodoPayload (TodoResponse.model_validate todo))),
      KeepCookie)).

Definition get_todo (db : Db.t) (credentials : token) (todo_id : UUID)
: outcome :=
quiet (
  current_user ←
    Dependencies.get_current_user settings e (Db.users db) credentials;
  todo ←
    TodoService.get_todo (Db.todos db) todo_id (User.id current_user);
  Ok (db, 200,
      ok_response (Some (TodoPayload (TodoResponse.model_validate todo))),
      KeepCookie)).

Definition update_todo (db : Db.t) (credentials : token) (todo_id : UUID)
  (data : TodoUpdate.t) : outcome :=
quiet (
  current_user ←
    Dependencies.get_current_user settings e (Db.users db) credentials;
  '(todos, todo) ←
    TodoService.update_todo (Db.todos db) todo_id (User.id current_user)
      data (Env.now e);
  Ok (Db.mk (Db.users db) todos, 200,
      ok_response (Some (TodoPayload (TodoResponse.model_validate todo))),
      KeepCookie)).

Definition delete_todo (db : Db.t) (credentials : token) (todo_id : UUID)
: outcome :=
quiet (
  current_user ←
    Dependencies.get_current_user settings e (Db.users db) credentials;
  todos ←
    TodoService.soft_delete_todo (Db.todos db) todo_id
      (User.id current_user) (Env.now e) (Env.flushed_at e);
  Ok (Db.mk (Db.users db) todos, 200, ok_response None, KeepCookie)).

Definition get_current_user_profile (db : Db.t) (credentials : token)
: outcome :=
quiet (
  current_user ←
    Dependencies.get_current_user settings e (Db.users db) credentials;
  Ok (db, 200,
      ok_response
        (Some (UserPayload (UserResponse.model_validate current_user))),
      KeepCookie)).

Definition update_current_user_profile (db : Db.t) (credentials : token)
  (data : UserUpdate.t) : outcome :=
quiet (
  current_user ←
    Dependencies.get_current_user settings e (Db.users db) credentials;
  '(users, updated_user) ←
    match UserUpdate.username data with
    | Some (c :: username) =>
        UserService.update_username (Db.users db) (User.id current_user)
          (c :: username) (Env.flushed_at e)
    | Some [] | None => Ok (Db.users db, current_user)
    end;
  Ok (Db.mk users (Db.todos db), 200,
      ok_response
        (Some (UserPayload (UserResponse.model_validate updated_user))),
      KeepCookie)).

Definition endpoint (db : Db.t) (req : request) : outcome :=
match req with
| Signup data => signup db data
| Login data => login db data
| RefreshToken cookie => refresh_token db cookie
| Logout credentials => logout db credentials
| ListTodos credentials page per_page status priority due sort_by
    sort_order =>
    list_todos db credentials page per_page status priority due sort_by
      sort_order
| PostTodo credentials data => create_todo db credentials data
| GetTodo credentials todo_id => get_todo db credentials todo_id
| PatchTodo credentials todo_id data =>
    update_todo db credentials todo_id data
| DeleteTodo credentials todo_id => delete_todo db credentials todo_id
| GetMe credentials => get_current_user_profile db credentials
| PatchMe credentials data =>
    update_current_user_profile db credentials data
end.

(** [app_exception_handler] for an [AppException], else
  [general_exception_handler]. *)
Definition exception_handler (exc : exn) : Z * APIResponse.t :=
match status_code exc, message exc with
| Some code, Some text =>
    (code, APIResponse.mk _ false None (Some text) (Env.responded_at e))
| _, _ =>
    (500, APIResponse.mk _ false None
            (Some (lit "An unexpected error occurred"))
            (Env.responded_at e))
end.

(** One request: the session commits after the endpoint returned and
  rolls back when it raised. *)
Definition serve (db : Db.t) (req : request) : Db.t * Response.t :=
match endpoint db req with
| (log, Ok (db', code, content, cookie)) =>
    (db', Response.mk _ code content cookie log)
| (log, Raise exc) =>
    let '(code, content) := exception_handler exc in
    (db, Response.mk _ code content KeepCookie log)
end.

End api.
End Api.

(** * Vocabulary of the statements *)

(** The one miss of the todo service. *)
Definition not_found : exn := NotFoundError (lit "Todo not found").

(** The row [update_todo] writes, in terms of the row it read. *)
Definition updated_row `{UnicodeDB} (todo : Todo.t) (data : TodoUpdate.t)
    (now : datetime) (todo' : Todo.t) : Prop :=
  Todo.id todo' = Todo.id todo
  ∧ Todo.user_id todo' = Todo.user_id todo
  ∧ Todo.created_at todo' = Todo.created_at todo
  ∧ Todo.deleted_at todo' = Todo.deleted_at todo
  ∧ Some (Todo.title todo')
    = TodoService.setattr (Some (Todo.title todo)) (TodoUpdate.title data)
  ∧ Todo.description todo'
    = TodoService.setattr (Todo.description todo) (TodoUpdate.description data)
  ∧ Some (Todo.status todo')
    = TodoService.setattr (Some (Todo.status todo)) (TodoUpdate.status data)
  ∧ Some (Todo.priority todo')
    = TodoService.setattr (Some (Todo.priority todo)) (TodoUpdate.priority data)
  ∧ Todo.due_date todo'
    = TodoService.setattr (Todo.due_date todo) (TodoUpdate.due_date data)
  ∧ Todo.tags todo'
    = (if is_given (TodoUpdate.title data)
          || is_given (TodoUpdate.description data)
       then AutoTags.extract_tags (Todo.title todo')
                                  (Todo.description todo')
       else Todo.tags todo)
  ∧ Todo.updated_at todo' = now.


(** The bounds the data model puts on a task record: the length of the
    title and the size of the derived tag list. *)
Definition task_invariant (todo : Todo.t) : Prop :=
  (1 ≤ length (Todo.title todo) ≤ 255)%nat
  ∧ (length (Todo.tags todo) ≤ 5)%nat.

(** The two writers the invariant is stated for, with the request
    schema each receives. *)
Inductive todo_write :=
  | CreateTodo (user_id : UUID) (data : TodoCreate.t) (new_id : UUID)
  | UpdateTodo (todo_id user_id : UUID) (data : TodoUpdate.t).

(** The request passed the checks of its schema. *)
Definition valid_write (w : todo_write) : bool :=
  match w with
  | CreateTodo _ data _ => TodoCreate.valid data
  | UpdateTodo _ _ data => TodoUpdate.valid data
  end.

Definition run_write `{UnicodeDB} (s : table) (w : todo_write)
    (now : datetime) : result (table * Todo.t) :=
  match w with
  | CreateTodo user_id data new_id =>
      TodoService.create_todo s user_id data new_id now
  | UpdateTodo todo_id user_id data =>
      TodoService.update_todo s todo_id user_id data now
  end.

(** One write to the todos table: a create, an update or a soft delete
    that returned. Reads leave the table as it is. *)
Inductive step `{UnicodeDB} (s : table) : table → Prop :=
  | step_create user_id data new_id now s' todo :
      TodoService.create_todo s user_id data new_id now = Ok (s', todo) →
      step s s'
  | step_update todo_id user_id data now s' todo :
      TodoService.update_todo s todo_id user_id data now = Ok (s', todo) →
      step s s'
  | step_delete todo_id user_id now flushed_at s' :
      TodoService.soft_delete_todo s todo_id user_id now flushed_at = Ok s' →
      step s s'.

(** The characters of [str(uuid)]: [0-9a-f] and the hyphen. *)
Definition lower_hex (c : char) : Prop :=
  (48 ≤ c ≤ 57)%N ∨ (97 ≤ c ≤ 102)%N.

Definition uuid_char (c : char) : Prop := lower_hex c ∨ c = 45%N.

(** The three errors the statements name: the [TokenError] of an expired
    token, the [TokenError] of a type mismatch, and the one error of a
    failed login. *)
Definition expired_error : exn :=
  TokenError (lit "Invalid token: " ++ lit "Signature has expired.").

Definition type_error (token_type : str) : exn :=
  TokenError (lit "Invalid token type. Expected " ++ token_type).

Definition invalid_credentials : exn :=
  AuthenticationError (lit "Invalid credentials").

(** The endpoints that answer with [APIResponse[None]]. *)
Definition answers_without_data `{JOSE} (req : request) : Prop :=
  match req with
  | Logout _ | DeleteTodo _ _ => True
  | _ => False
  end.

(** ** Instances and data to run the model with *)

(** A MAC to run the model with: the signature is the signed material
    itself. *)
#[global] Instance plain_signature_eq_dec :
  EqDecision (str * str * list (str * value)).
Proof. apply _. Defined.

Definition plain_jose : JOSE := {|
  signature := str * str * list (str * value);
  signature_eq_dec := plain_signature_eq_dec;
  sign alg key claims := (alg, key, map_to_list claims);
|}.

(** A password primitive to run the model with: the hash is the salt, a
    separator and the password. *)
Definition plain_password : Password := {|
  hash_password salt plain := salt ++ lit "$" ++ plain;
  verify_password plain hashed :=
    is_prefix (reverse (lit "$" ++ plain)) (reverse hashed);
|}.

Module Sample.
Definition alice : UUID := 1%N.
Definition bob : UUID := 2%N.
Definition task : UUID := 10%N.

Definition todo : Todo.t := {|
  Todo.id := task;
  Todo.user_id := alice;
  Todo.title := lit "Test";
  Todo.description := None;
  Todo.status := PENDING;
  Todo.priority := MEDIUM;
  Todo.due_date := None;
  Todo.tags := [lit "learning"; lit "tech"; lit "test"];
  Todo.created_at := 0;
  Todo.updated_at := 0;
  Todo.deleted_at := None;
|}.

Definition retitled : Todo.t := {|
  Todo.id := task;
  Todo.user_id := alice;
  Todo.title := lit "Buy milk";
  Todo.description := None;
  Todo.status := PENDING;
  Todo.priority := MEDIUM;
  Todo.due_date := None;
  Todo.tags := [lit "shopping"; lit "milk"];
  Todo.created_at := 0;
  Todo.updated_at := 5;
  Todo.deleted_at := None;
|}.

Definition deleted : Todo.t := {|
  Todo.id := task;
  Todo.user_id := alice;
  Todo.title := lit "Test";
  Todo.description := None;
  Todo.status := PENDING;
  Todo.priority := MEDIUM;
  Todo.due_date := None;
  Todo.tags := [lit "learning"; lit "tech"; lit "test"];
  Todo.created_at := 0;
  Todo.updated_at := 6;
  Todo.deleted_at := Some 5;
|}.

Definition new_todo : TodoCreate.t :=
  TodoCreate.mk (lit "Test") None PENDING MEDIUM None.

(** The request [{"title": "Buy milk"}]. *)
Definition retitle : TodoUpdate.t :=
  TodoUpdate.mk (Given (Some (lit "Buy milk"))) Unset Unset Unset Unset.

(** The request [{"priority": "high"}]. *)
Definition raise_priority : TodoUpdate.t :=
  TodoUpdate.mk Unset Unset Unset (Given (Some HIGH)) Unset.

Definition user : User.t := {|
  User.id := alice;
  User.email := lit "alice@example.com";
  User.username := lit "alice";
  User.password_hash := lit "salt$pw12345678";
  User.created_at := 0;
  User.updated_at := 0;
  User.deleted_at := None;
|}.

Definition db : Db.t := Db.mk [user] [todo].

Definition env : Env.t := {|
  Env.now := 5;
  Env.issued_at := 5;
  Env.flushed_at := 6;
  Env.responded_at := 7;
  Env.today := 0;
  Env.new_id := 11%N;
  Env.new_jti := 12%N;
  Env.salt := lit "salt";
  Env.client_ip := lit "127.0.0.1";
|}.
End Sample.

(** ** Vocabulary of the further properties *)

(** A cleaned piece of the text: a piece of [text.split()] with its
    non-alphanumeric characters dropped. *)
Definition cleaned_piece `{UnicodeDB} (text w : str) : Prop :=
  ∃ piece, piece ∈ split text ∧ w = filter (λ c, isalnum c = true) piece.

(** [ORDER BY column ASC / DESC] as a relation between a row and the rows
    after it. *)
Definition sorted_by (by_ : sort_field) (dir : sort_direction)
  : relation Todo.t :=
  match dir with
  | Desc => flip (row_le by_)
  | Asc => row_le by_
  end.

(** The error of [get_current_user] and [refresh_tokens] for a subject
    that is not an active user. *)
Definition user_not_found : exn := AuthenticationError (lit "User not found").

(** The bearer token a request carries, if its endpoint depends on
    [get_current_user]. *)
Definition credentials_of `{JOSE} (req : request) : option token :=
  match req with
  | Signup _ | Login _ | RefreshToken _ => None
  | Logout credentials
  | ListTodos credentials _ _ _ _ _ _ _
  | PostTodo credentials _
  | GetTodo credentials _
  | PatchTodo credentials _ _
  | DeleteTodo credentials _
  | GetMe credentials
  | PatchMe credentials _ => Some credentials
  end.

(** The status code of the decorator of an endpoint: [201] for the two
    that create a row, [200] for the others. *)
Definition success_code `{JOSE} (req : request) : Z :=
  match req with
  | Signup _ | PostTodo _ _ => 201
  | _ => 200
  end.

(** ** Data of a session to run the further properties with *)

Module Session.
(** A task of a second user beside the sample task. *)
Definition bob_todo : Todo.t := {|
  Todo.id := 20%N;
  Todo.user_id := Sample.bob;
  Todo.title := lit "Call mom";
  Todo.description := None;
  Todo.status := PENDING;
  Todo.priority := LOW;
  Todo.due_date := None;
  Todo.tags := [lit "call"];
  Todo.created_at := 1;
  Todo.updated_at := 1;
  Todo.deleted_at := None;
|}.

Definition db : Db.t := Db.mk [Sample.user] [Sample.todo; bob_todo].

(** The bearer token of the sample user, issued at clock reading 0. *)
Definition credentials : @token plain_jose :=
  @Jwt.create_access_token plain_jose Settings.default 0 0 Sample.alice.

(** The first page of the sample user's tasks, and the page after it. *)
Definition first_page : PaginatedData.t :=
  PaginatedData.mk [TodoResponse.model_validate Sample.todo] 1 10 1 1.

End Session.

(** * Properties *)

(** ** The keyword extractor at two inputs *)

Section auto_tags_examples.
Local Existing Instance ascii_db.

Example extract_tags_test :
  AutoTags.extract_tags (lit "Test") None
  = [lit "learning"; lit "tech"; lit "test"].
Proof. vm_compute. reflexivity. Qed.

Example extract_tags_buy_milk :
  AutoTags.extract_tags (lit "Buy milk") (Some (lit "from THE store!"))
  = [lit "shopping"; lit "milk"; lit "store"].
Proof. vm_compute. reflexivity. Qed.
End auto_tags_examples.

(** ** Queries on a table with a primary key *)

Section table_facts.
Implicit Types (s : table) (todo row : Todo.t).

Lemma primary_key_inj s row row' :
  primary_key s → row ∈ s → row' ∈ s → Todo.id row = Todo.id row' →
  row = row'.
Proof.
  unfold primary_key. induction s as [|x s IH]; intros Hnd Hin Hin' Heq.
  - by apply elem_of_nil in Hin.
  - rewrite fmap_cons in Hnd. apply NoDup_cons in Hnd as [Hx Hnd].
    apply elem_of_cons in Hin as [->|Hin];
      apply elem_of_cons in Hin' as [->|Hin']; auto.
    + exfalso. apply Hx. rewrite Heq. by apply list_elem_of_fmap_2.
    + exfalso. apply Hx. rewrite <- Heq. by apply list_elem_of_fmap_2.
Qed.

(** A selection by [id] returns at most one row. *)
Lemma select_by_id s (P : Todo.t → Prop) `{∀ row, Decision (P row)} i :
  primary_key s →
  filter (λ row, Todo.id row = i ∧ P row) s = []
  ∨ ∃ row, filter (λ row, Todo.id row = i ∧ P row) s = [row].
Proof.
  unfold primary_key. induction s as [|x s IH]; intros Hnd; [by left|].
  rewrite fmap_cons in Hnd. apply NoDup_cons in Hnd as [Hx Hnd].
  rewrite filter_cons. case_decide as Hc.
  - right. exists x. f_equal.
    destruct (filter _ s) as [|y l] eqn:Hf; [done|]. exfalso.
    assert (y ∈ filter (λ row, Todo.id row = i ∧ P row) s) as Hy
      by (rewrite Hf; left).
    apply list_elem_of_filter in Hy as [[Hyi _] Hys].
    apply Hx. destruct Hc as [-> _]. rewrite <- Hyi.
    by apply list_elem_of_fmap_2.
  - by apply IH.
Qed.

Lemma write_row_ids s todo : Todo.id <$> write_row s todo = Todo.id <$> s.
Proof.
  unfold write_row. rewrite <- list_fmap_compose. apply list_fmap_ext.
  intros _ row _. simpl. by case_decide.
Qed.

Lemma write_row_length s todo : length (write_row s todo) = length s.
Proof. unfold write_row. by rewrite length_fmap. Qed.

Lemma write_row_primary_key s todo :
  primary_key s → primary_key (write_row s todo).
Proof. unfold primary_key. by rewrite write_row_ids. Qed.

Lemma elem_of_write_row s todo row :
  row ∈ write_row s todo ↔
  (row = todo ∧ Todo.id todo ∈ Todo.id <$> s)
  ∨ (row ∈ s ∧ Todo.id row ≠ Todo.id todo).
Proof.
  unfold write_row. rewrite list_elem_of_fmap. split.
  - intros (x & -> & Hx). case_decide as Hc; [left|right; done].
    split; [done|]. rewrite <- Hc. by apply list_elem_of_fmap_2.
  - intros [[-> Hin]|[Hin Hne]].
    + apply list_elem_of_fmap in Hin as (x & Hx & Hin).
      exists x. by rewrite decide_True.
    + exists row. by rewrite decide_False.
Qed.

End table_facts.

(** ** [get_todo] *)

Section get_todo_facts.
Import TodoService.
Implicit Types (s : table) (todo row : Todo.t).

Lemma get_todo_Ok s todo_id user_id todo :
  get_todo s todo_id user_id = Ok todo →
  todo ∈ s ∧ Todo.id todo = todo_id ∧ Todo.user_id todo = user_id
  ∧ Todo.deleted_at todo = None.
Proof.
  unfold get_todo. intros Hget.
  destruct (filter _ s) as [|x [|y l]] eqn:Hf; simpl in Hget; try done.
  injection Hget as <-.
  assert (x ∈ filter (λ row, Todo.id row = todo_id
                             ∧ Todo.user_id row = user_id
                             ∧ Todo.deleted_at row = None) s) as Hx
    by (rewrite Hf; left).
  apply list_elem_of_filter in Hx as [(? & ? & ?) ?]. done.
Qed.

Lemma get_todo_found s todo :
  primary_key s → todo ∈ s → Todo.deleted_at todo = None →
  get_todo s (Todo.id todo) (Todo.user_id todo) = Ok todo.
Proof.
  intros Hpk Hin Hdel. unfold get_todo.
  assert (todo ∈ filter (λ row, Todo.id row = Todo.id todo
                                ∧ Todo.user_id row = Todo.user_id todo
                                ∧ Todo.deleted_at row = None) s) as Hx
    by (apply list_elem_of_filter; done).
  destruct (select_by_id s
              (λ row, Todo.user_id row = Todo.user_id todo
                      ∧ Todo.deleted_at row = None) (Todo.id todo) Hpk)
    as [Hf|[row Hf]]; rewrite Hf in Hx |- *.
  - by apply elem_of_nil in Hx.
  - apply list_elem_of_singleton in Hx as ->. done.
Qed.

(** No exception other than [NotFoundError] leaves [get_todo]. *)
Lemma get_todo_Raise s todo_id user_id e :
  primary_key s → get_todo s todo_id user_id = Raise e → e = not_found.
Proof.
  intros Hpk. unfold get_todo.
  destruct (select_by_id s
              (λ row, Todo.user_id row = user_id
                      ∧ Todo.deleted_at row = None) todo_id Hpk)
    as [Hf|[row Hf]]; rewrite Hf; cbn; unfold not_found; congruence.
Qed.

Lemma get_todo_not_found s todo_id user_id :
  primary_key s →
  (∀ row, row ∈ s → Todo.id row = todo_id →
          Todo.user_id row ≠ user_id ∨ Todo.deleted_at row ≠ None) →
  get_todo s todo_id user_id = Raise not_found.
Proof.
  intros Hpk Hno.
  destruct (get_todo s todo_id user_id) as [todo|e] eqn:Hget.
  - apply get_todo_Ok in Hget as (Hin & Hid & Hu & Hd).
    destruct (Hno todo Hin Hid); done.
  - f_equal. by eapply get_todo_Raise.
Qed.

(** A row owned by somebody else, a soft-deleted row and a missing id
    all give the same miss. *)
Lemma get_todo_other_owner s todo user_id :
  primary_key s → todo ∈ s → Todo.user_id todo ≠ user_id →
  get_todo s (Todo.id todo) user_id = Raise not_found.
Proof.
  intros Hpk Hin Hne. apply get_todo_not_found; [done|].
  intros row Hrow Hid.
  rewrite (primary_key_inj s row todo Hpk Hrow Hin Hid). by left.
Qed.

Lemma get_todo_deleted s todo user_id :
  primary_key s → todo ∈ s → Todo.deleted_at todo ≠ None →
  get_todo s (Todo.id todo) user_id = Raise not_found.
Proof.
  intros Hpk Hin Hne. apply get_todo_not_found; [done|].
  intros row Hrow Hid.
  rewrite (primary_key_inj s row todo Hpk Hrow Hin Hid). by right.
Qed.

Lemma get_todo_missing s todo_id user_id :
  primary_key s → todo_id ∉ Todo.id <$> s →
  get_todo s todo_id user_id = Raise not_found.
Proof.
  intros Hpk Hmiss. apply get_todo_not_found; [done|].
  intros row Hrow Hid. exfalso. apply Hmiss. rewrite <- Hid.
  by apply list_elem_of_fmap_2.
Qed.

(** [update_todo] and [soft_delete_todo] start with [get_todo] and
    pass its exception on. *)
Lemma update_todo_get_Raise `{UnicodeDB} s todo_id user_id data now e :
  get_todo s todo_id user_id = Raise e →
  update_todo s todo_id user_id data now = Raise e.
Proof. unfold update_todo. by intros ->. Qed.

Lemma soft_delete_todo_get_Raise s todo_id user_id now flushed_at e :
  get_todo s todo_id user_id = Raise e →
  soft_delete_todo s todo_id user_id now flushed_at = Raise e.
Proof. unfold soft_delete_todo. by intros ->. Qed.

End get_todo_facts.

(** ** Misses on one table *)

(** On one table: a row of somebody else is missed by the three
    accessors like an id that no row has. *)
Lemma other_owner_misses `{UnicodeDB}
    (s : table) (todo : Todo.t) (u1 u2 missing : UUID)
    (data : TodoUpdate.t) (now flushed_at : datetime) :
  primary_key s → todo ∈ s → Todo.user_id todo = u1 → u1 ≠ u2 →
  missing ∉ Todo.id <$> s →
  TodoService.get_todo s (Todo.id todo) u2 = Raise not_found
  ∧ TodoService.update_todo s (Todo.id todo) u2 data now = Raise not_found
  ∧ TodoService.soft_delete_todo s (Todo.id todo) u2 now flushed_at
    = Raise not_found
  ∧ status_code not_found = Some 404
  ∧ TodoService.get_todo s (Todo.id todo) u2
    = TodoService.get_todo s missing u2
  ∧ TodoService.update_todo s (Todo.id todo) u2 data now
    = TodoService.update_todo s missing u2 data now
  ∧ TodoService.soft_delete_todo s (Todo.id todo) u2 now flushed_at
    = TodoService.soft_delete_todo s missing u2 now flushed_at.
Proof.
  intros Hpk Hin Hown Hne Hmiss.
  assert (TodoService.get_todo s (Todo.id todo) u2 = Raise not_found) as Hget
    by (apply get_todo_other_owner; congruence).
  pose proof (get_todo_missing s missing u2 Hpk Hmiss) as Hget'.
  rewrite (update_todo_get_Raise _ _ _ _ _ _ Hget),
    (update_todo_get_Raise _ _ _ _ _ _ Hget'),
    (soft_delete_todo_get_Raise _ _ _ _ _ _ Hget),
    (soft_delete_todo_get_Raise _ _ _ _ _ _ Hget'), Hget, Hget'.
  repeat split.
Qed.

(** ** What the three writers do to the table *)

Section writer_facts.
Context `{UnicodeDB}.
Import TodoService.
Implicit Types (s : table) (todo row : Todo.t).

Lemma extract_tags_length title description :
  (length (AutoTags.extract_tags title description) ≤ 5)%nat.
Proof. unfold AutoTags.extract_tags. rewrite length_take. lia. Qed.

Lemma create_todo_Ok s user_id data new_id now s' todo :
  create_todo s user_id data new_id now = Ok (s', todo) →
  (new_id ∉ Todo.id <$> s)
  ∧ s' = s ++ [todo]
  ∧ Todo.id todo = new_id
  ∧ Todo.user_id todo = user_id
  ∧ Todo.title todo = TodoCreate.title data
  ∧ Todo.description todo = TodoCreate.description data
  ∧ Todo.tags todo
    = AutoTags.extract_tags (TodoCreate.title data)
                            (TodoCreate.description data)
  ∧ Todo.deleted_at todo = None.
Proof.
  unfold create_todo. case_bool_decide as Hin; [done|].
  intros [= <- <-]. done.
Qed.

(** A fresh id is all an insert needs. *)
Lemma create_todo_fresh s user_id data new_id now :
  new_id ∉ Todo.id <$> s →
  ∃ s' todo, create_todo s user_id data new_id now = Ok (s', todo).
Proof.
  intros Hfresh. unfold create_todo.
  rewrite bool_decide_eq_false_2 by done. eauto.
Qed.

Lemma create_todo_primary_key s user_id data new_id now s' todo :
  primary_key s →
  create_todo s user_id data new_id now = Ok (s', todo) →
  primary_key s'.
Proof.
  intros Hpk (Hfresh & -> & Hid & _)%create_todo_Ok.
  unfold primary_key in *. rewrite fmap_app. apply NoDup_app.
  split_and!; [done| |apply NoDup_singleton].
  intros x Hx. simpl. rewrite Hid, list_elem_of_singleton. by intros ->.
Qed.

Lemma update_todo_Ok s todo_id user_id data now s' todo' :
  update_todo s todo_id user_id data now = Ok (s', todo') →
  ∃ todo, get_todo s todo_id user_id = Ok todo
          ∧ updated_row todo data now todo'
          ∧ s' = write_row s todo'.
Proof.
  unfold update_todo, updated_row.
  destruct (get_todo s todo_id user_id) as [todo|e]; [|done].
  intros Hupd. exists todo. split; [done|]. cbn in Hupd.
  destruct data as [dt dd ds dp du]; cbn in *.
  destruct dt as [|[t|]], dd as [|d], ds as [|[st|]], dp as [|[pr|]];
    cbn in Hupd; try done; injection Hupd as <- <-; cbn; done.
Qed.


Lemma update_todo_primary_key s todo_id user_id data now s' todo' :
  primary_key s →
  update_todo s todo_id user_id data now = Ok (s', todo') →
  primary_key s'.
Proof.
  intros Hpk (todo & _ & _ & ->)%update_todo_Ok.
  by apply write_row_primary_key.
Qed.

Lemma soft_delete_todo_Ok s todo_id user_id now flushed_at s' :
  soft_delete_todo s todo_id user_id now flushed_at = Ok s' →
  ∃ todo todo',
    get_todo s todo_id user_id = Ok todo
    ∧ s' = write_row s todo'
    ∧ Todo.id todo' = todo_id
    ∧ Todo.user_id todo' = Todo.user_id todo
    ∧ Todo.title todo' = Todo.title todo
    ∧ Todo.tags todo' = Todo.tags todo
    ∧ Todo.created_at todo' = Todo.created_at todo
    ∧ Todo.deleted_at todo' = Some now.
Proof.
  unfold soft_delete_todo.
  destruct (get_todo s todo_id user_id) as [todo|e] eqn:Hget; [|done].
  cbn. intros [= <-]. eexists todo, _. split_and!; try done.
  by apply get_todo_Ok in Hget as (_ & <- & _).
Qed.

Lemma soft_delete_todo_primary_key s todo_id user_id now flushed_at s' :
  primary_key s →
  soft_delete_todo s todo_id user_id now flushed_at = Ok s' →
  primary_key s'.
Proof.
  intros Hpk (todo & todo' & _ & -> & _)%soft_delete_todo_Ok.
  by apply write_row_primary_key.
Qed.

End writer_facts.

(** ** Listing *)

Section list_facts.
Import TodoService.
Implicit Types (s : table) (todo row : Todo.t).

Lemma order_by_Permutation by_ dir rows : order_by by_ dir rows ≡ₚ rows.
Proof. destruct dir; apply merge_sort_Permutation. Qed.

Lemma list_todos_Ok s user_id page per_page status priority due sort_by
    sort_order today pd :
  list_todos s user_id page per_page status priority due sort_by
             sort_order today = Ok pd →
  PaginatedData.total pd
  = Z.of_nat
      (length (filter (list_where user_id status priority due today) s))
  ∧ PaginatedData.page pd = page
  ∧ PaginatedData.per_page pd = per_page
  ∧ PaginatedData.items pd
    = TodoResponse.model_validate
      <$> take (Z.to_nat per_page)
            (drop (Z.to_nat ((page - 1) * per_page))
               (order_by sort_by sort_order
                  (filter (list_where user_id status priority due today)
                          s))).
Proof.
  unfold list_todos. case_match; [done|].
  repeat case_match; cbn; try done; by intros [= <-].
Qed.

(** Every listed item is a row of the table that passes the filter. *)
Lemma list_todos_items s user_id page per_page status priority due sort_by
    sort_order today pd item :
  list_todos s user_id page per_page status priority due sort_by
             sort_order today = Ok pd →
  item ∈ PaginatedData.items pd →
  ∃ row, row ∈ s
         ∧ list_where user_id status priority due today row
         ∧ item = TodoResponse.model_validate row.
Proof.
  intros (_ & _ & _ & ->)%list_todos_Ok.
  intros (row & -> & Hrow)%list_elem_of_fmap.
  exists row. split_and!; [| |done].
  - apply subseteq_take, subseteq_drop in Hrow.
    rewrite order_by_Permutation in Hrow.
    by apply list_elem_of_filter in Hrow as [_ ?].
  - apply subseteq_take, subseteq_drop in Hrow.
    rewrite order_by_Permutation in Hrow.
    by apply list_elem_of_filter in Hrow as [? _].
Qed.

End list_facts.

(** ** Writes, one after the other *)

Section step_facts.
Context `{UnicodeDB}.
Implicit Types (s : table) (todo row : Todo.t).

Lemma step_primary_key s s' : primary_key s → step s s' → primary_key s'.
Proof.
  intros Hpk [user_id data new_id now s1 todo Hop
             |todo_id user_id data now s1 todo Hop
             |todo_id user_id now flushed_at s1 Hop].
  - by eapply create_todo_primary_key.
  - by eapply update_todo_primary_key.
  - by eapply soft_delete_todo_primary_key.
Qed.

(** A write keeps every row that is not its target. *)
Lemma write_row_other s todo todo' row :
  primary_key s → todo ∈ s → Todo.id todo' = Todo.id todo →
  row ∈ s → row ≠ todo → row ∈ write_row s todo'.
Proof.
  intros Hpk Hin Hid Hrow Hne. apply elem_of_write_row. right.
  split; [done|]. rewrite Hid. intros Heq. apply Hne.
  by eapply primary_key_inj.
Qed.

Lemma write_row_target s todo todo' :
  todo ∈ s → Todo.id todo' = Todo.id todo → todo' ∈ write_row s todo'.
Proof.
  intros Hin Hid. apply elem_of_write_row. left. split; [done|].
  rewrite Hid. by apply list_elem_of_fmap_2.
Qed.

(** No write changes the owner of a row, nor removes the row. *)
Lemma step_keeps_owner s s' row :
  primary_key s → step s s' → row ∈ s →
  ∃ row', row' ∈ s' ∧ Todo.id row' = Todo.id row
          ∧ Todo.user_id row' = Todo.user_id row.
Proof.
  intros Hpk Hstep Hrow.
  destruct Hstep as [user_id data new_id now s1 todo Hop
                    |todo_id user_id data now s1 todo' Hop
                    |todo_id user_id now flushed_at s1 Hop].
  - apply create_todo_Ok in Hop as (_ & -> & _).
    exists row. split_and!; [|done..]. apply elem_of_app. by left.
  - apply update_todo_Ok in Hop as (todo & Hget & Hupd & ->).
    apply get_todo_Ok in Hget as (Hin & _).
    destruct Hupd as (Hid & Hown & _).
    destruct (decide (row = todo)) as [->|Hne].
    + exists todo'. split_and!; [by eapply write_row_target|done..].
    + exists row. split_and!; [by apply (write_row_other s todo)|done..].
  - apply soft_delete_todo_Ok
      in Hop as (todo & todo' & Hget & -> & Hid & Hown & _).
    apply get_todo_Ok in Hget as (Hin & Hid0 & _).
    destruct (decide (row = todo)) as [->|Hne].
    + exists todo'. split_and!; [|congruence|done].
      eapply write_row_target; [done|congruence].
    + exists row. split_and!; [|done..].
      apply (write_row_other s todo); [done..|congruence|done|done].
Qed.

(** A soft-deleted row is the target of no write: it stays as it is. *)
Lemma step_keeps_deleted s s' row :
  primary_key s → step s s' → row ∈ s → Todo.deleted_at row ≠ None →
  row ∈ s'.
Proof.
  intros Hpk Hstep Hrow Hdel.
  destruct Hstep as [user_id data new_id now s1 todo Hop
                    |todo_id user_id data now s1 todo' Hop
                    |todo_id user_id now flushed_at s1 Hop].
  - apply create_todo_Ok in Hop as (_ & -> & _). apply elem_of_app. by left.
  - apply update_todo_Ok in Hop as (todo & Hget & Hupd & ->).
    apply get_todo_Ok in Hget as (Hin & _ & _ & Hnone).
    destruct Hupd as (Hid & _).
    apply (write_row_other s todo); [done..|]. intros ->. done.
  - apply soft_delete_todo_Ok
      in Hop as (todo & todo' & Hget & -> & Hid & _).
    apply get_todo_Ok in Hget as (Hin & Hid0 & _ & Hnone).
    apply (write_row_other s todo); [done..|congruence|done|].
    intros ->. done.
Qed.

Lemma steps_primary_key s s' :
  primary_key s → rtc step s s' → primary_key s'.
Proof.
  intros Hpk Hsteps. induction Hsteps as [|s1 s2 s3 Hstep _ IH]; [done|].
  apply IH. by eapply step_primary_key.
Qed.

Lemma steps_keep_owner s s' row :
  primary_key s → rtc step s s' → row ∈ s →
  ∃ row', row' ∈ s' ∧ Todo.id row' = Todo.id row
          ∧ Todo.user_id row' = Todo.user_id row.
Proof.
  intros Hpk Hsteps. revert row.
  induction Hsteps as [|s1 s2 s3 Hstep _ IH]; intros row Hrow; [by exists row|].
  destruct (step_keeps_owner _ _ _ Hpk Hstep Hrow) as (row1 & Hin1 & Hid1 & Hu1).
  destruct (IH (step_primary_key _ _ Hpk Hstep) row1 Hin1)
    as (row2 & Hin2 & Hid2 & Hu2).
  exists row2. split_and!; [done|congruence..].
Qed.

Lemma steps_keep_deleted s s' row :
  primary_key s → rtc step s s' → row ∈ s → Todo.deleted_at row ≠ None →
  row ∈ s'.
Proof.
  intros Hpk Hsteps Hrow Hdel.
  induction Hsteps as [|s1 s2 s3 Hstep _ IH]; [done|].
  apply IH; [by eapply step_primary_key|by eapply step_keeps_deleted].
Qed.

(** On one table: a soft-deleted row is absent for the three accessors
    and for the listing. *)
Lemma deleted_row_is_absent s row :
  primary_key s → row ∈ s → Todo.deleted_at row ≠ None →
  (∀ user_id,
     TodoService.get_todo s (Todo.id row) user_id = Raise not_found)
  ∧ (∀ user_id data now,
       TodoService.update_todo s (Todo.id row) user_id data now
       = Raise not_found)
  ∧ (∀ user_id now flushed_at,
       TodoService.soft_delete_todo s (Todo.id row) user_id now flushed_at
       = Raise not_found)
  ∧ (∀ user_id page per_page status priority due sort_by sort_order today pd,
       TodoService.list_todos s user_id page per_page status priority due
                              sort_by sort_order today = Ok pd →
       Todo.id row ∉ TodoResponse.id <$> PaginatedData.items pd).
Proof.
  intros Hpk Hin Hdel.
  assert (∀ user_id,
            TodoService.get_todo s (Todo.id row) user_id = Raise not_found)
    as Hmiss by (intros; by apply get_todo_deleted).
  split_and!.
  - done.
  - intros. by apply update_todo_get_Raise.
  - intros. by apply soft_delete_todo_get_Raise.
  - intros user_id page per_page status priority due sort_by sort_order
      today pd Hlist (item & Hitem & Hmem)%list_elem_of_fmap.
    destruct (list_todos_items _ _ _ _ _ _ _ _ _ _ _ _ Hlist Hmem)
      as (row' & Hrow' & Hwhere & ->).
    cbn in Hitem.
    rewrite <- (primary_key_inj _ _ _ Hpk Hin Hrow' Hitem) in Hwhere.
    by destruct Hwhere as (_ & Hnone & _).
Qed.

End step_facts.

(** ** Ownership isolation *)

(** C1: for users U1 ≠ U2 and a task created by U1, at every later state
    of the table each get, update and soft-delete of that task made with
    U2's identity raises the NotFound error (status 404), the same
    outcome as for an id that no row of the table has. *)
Theorem foreign_task_is_not_found `{UnicodeDB}
    (s0 s1 s : table) (u1 u2 new_id missing : UUID)
    (created : TodoCreate.t) (created_at : datetime) (todo : Todo.t)
    (data : TodoUpdate.t) (now flushed_at : datetime) :
  primary_key s0 →
  TodoService.create_todo s0 u1 created new_id created_at = Ok (s1, todo) →
  rtc step s1 s →
  u1 ≠ u2 →
  missing ∉ Todo.id <$> s →
  TodoService.get_todo s (Todo.id todo) u2 = Raise not_found
  ∧ TodoService.update_todo s (Todo.id todo) u2 data now = Raise not_found
  ∧ TodoService.soft_delete_todo s (Todo.id todo) u2 now flushed_at
    = Raise not_found
  ∧ status_code not_found = Some 404
  ∧ TodoService.get_todo s (Todo.id todo) u2
    = TodoService.get_todo s missing u2
  ∧ TodoService.update_todo s (Todo.id todo) u2 data now
    = TodoService.update_todo s missing u2 data now
  ∧ TodoService.soft_delete_todo s (Todo.id todo) u2 now flushed_at
    = TodoService.soft_delete_todo s missing u2 now flushed_at.
Proof.
  intros Hpk0 Hcreate Hsteps Hne Hmiss.
  pose proof (create_todo_primary_key _ _ _ _ _ _ _ Hpk0 Hcreate) as Hpk1.
  apply create_todo_Ok in Hcreate as (_ & -> & _ & Hown & _).
  assert (todo ∈ s0 ++ [todo]) as Hin
    by (apply elem_of_app; right; by apply list_elem_of_singleton).
  destruct (steps_keep_owner _ _ _ Hpk1 Hsteps Hin)
    as (row & Hrow & Hid & Hu).
  rewrite <- Hid.
  apply (other_owner_misses s row u1 u2 missing);
    [by eapply steps_primary_key|done|congruence|done|done].
Qed.

(** ** Soft deletion *)

(** C4: a soft delete keeps the row in the table, with its delete
    timestamp set, and at every later state of the table the row is still
    there and every get, update, soft delete and listing treats it as
    absent; a second delete raises the same NotFound error as any miss. *)
Theorem soft_deleted_task_is_kept_but_absent `{UnicodeDB}
    (s s' : table) (todo_id user_id : UUID) (now flushed_at : datetime) :
  primary_key s →
  TodoService.soft_delete_todo s todo_id user_id now flushed_at = Ok s' →
  Todo.id <$> s' = Todo.id <$> s
  ∧ ∃ row,
      Todo.id row = todo_id
      ∧ Todo.deleted_at row = Some now
      ∧ ∀ s'', rtc step s' s'' →
          row ∈ s''
          ∧ (∀ user_id',
               TodoService.get_todo s'' todo_id user_id' = Raise not_found)
          ∧ (∀ user_id' data now',
               TodoService.update_todo s'' todo_id user_id' data now'
               = Raise not_found)
          ∧ (∀ user_id' now' flushed_at',
               TodoService.soft_delete_todo s'' todo_id user_id' now'
                 flushed_at'
               = Raise not_found)
          ∧ (∀ user_id' page per_page status priority due sort_by
               sort_order today pd,
               TodoService.list_todos s'' user_id' page per_page status
                 priority due sort_by sort_order today = Ok pd →
               todo_id ∉ TodoResponse.id <$> PaginatedData.items pd).
Proof.
  intros Hpk Hdel.
  pose proof (soft_delete_todo_primary_key _ _ _ _ _ _ Hpk Hdel) as Hpk'.
  apply soft_delete_todo_Ok
    in Hdel as (todo & todo' & Hget & -> & Hid & _ & _ & _ & _ & Hdeleted).
  apply get_todo_Ok in Hget as (Hin & Hid0 & _ & _).
  split; [apply write_row_ids|].
  exists todo'. split_and!; [done..|].
  intros s'' Hsteps.
  assert (Todo.deleted_at todo' ≠ None) as Hset by (by rewrite Hdeleted).
  assert (todo' ∈ write_row s todo') as Hin'
    by (eapply write_row_target; [done|congruence]).
  pose proof (steps_keep_deleted _ _ _ Hpk' Hsteps Hin' Hset) as Hin''.
  pose proof (steps_primary_key _ _ Hpk' Hsteps) as Hpk''.
  rewrite <- Hid. split; [done|].
  by apply deleted_row_is_absent.
Qed.

(** ** Pagination *)



(** ** Updates *)



(** C10: after a successful update that supplies title or description,
    the stored tag list is what the extractor used at creation gives on
    the new title and description; an update that supplies neither keeps
    the tag list. *)
Theorem update_recomputes_tags `{UnicodeDB}
    (s s' : table) (todo_id user_id : UUID) (data : TodoUpdate.t)
    (now : datetime) (todo todo' : Todo.t) :
  primary_key s →
  TodoService.get_todo s todo_id user_id = Ok todo →
  TodoService.update_todo s todo_id user_id data now = Ok (s', todo') →
  TodoService.get_todo s' todo_id user_id = Ok todo'
  ∧ (is_given (TodoUpdate.title data)
     || is_given (TodoUpdate.description data) = true →
     Todo.tags todo'
     = AutoTags.extract_tags (Todo.title todo') (Todo.description todo')
     ∧ ∀ s0 s0' owner status priority due_date new_id now0 created,
         TodoService.create_todo s0 owner
           (TodoCreate.mk (Todo.title todo') (Todo.description todo')
                          status priority due_date) new_id now0
         = Ok (s0', created) →
         Todo.tags todo' = Todo.tags created)
  ∧ (TodoUpdate.title data = Unset → TodoUpdate.description data = Unset →
     Todo.tags todo' = Todo.tags todo).
Proof.
  intros Hpk Hget Hupd.
  pose proof (update_todo_primary_key _ _ _ _ _ _ _ Hpk Hupd) as Hpk'.
  apply update_todo_Ok in Hupd as (todo0 & Hget0 & Hrow & ->).
  rewrite Hget in Hget0. injection Hget0 as <-.
  destruct Hrow as (Hid & Hown & _ & Hdel & _ & _ & _ & _ & _ & Htags & _).
  apply get_todo_Ok in Hget as (Hin & <- & <- & Hnone).
  split_and!.
  - rewrite <- Hid, <- Hown. apply get_todo_found; [done| |congruence].
    apply elem_of_write_row. left. split; [done|].
    rewrite Hid. by apply list_elem_of_fmap_2.
  - intros Hgiven. rewrite Hgiven in Htags. split; [done|].
    intros s0 s0' owner status priority due_date new_id now0 created
      (_ & _ & _ & _ & _ & _ & Hcreated & _)%create_todo_Ok.
    by rewrite Hcreated.
  - intros Ht Hd. by rewrite Htags, Ht, Hd.
Qed.

(** ** The invariant of task records *)

Lemma Forall_write_row (P : Todo.t → Prop) (s : table) (todo : Todo.t) :
  Forall P s → P todo → Forall P (write_row s todo).
Proof.
  intros Hs Htodo. unfold write_row. apply Forall_fmap.
  eapply Forall_impl; [exact Hs|]. intros row Hrow. simpl. by case_decide.
Qed.

(** C9: every create and every update that succeeds on a validated
    request keeps the invariant of task records: the title has between 1
    and 255 characters and the tag list at most 5 entries. *)
Theorem writes_keep_task_invariant `{UnicodeDB}
    (s s' : table) (w : todo_write) (now : datetime) (todo : Todo.t) :
  valid_write w = true →
  Forall task_invariant s →
  run_write s w now = Ok (s', todo) →
  task_invariant todo ∧ Forall task_invariant s'.
Proof.
  intros Hvalid Hinv Hrun. destruct w as [user_id data new_id|todo_id user_id data];
    cbn in Hvalid, Hrun.
  - apply create_todo_Ok
      in Hrun as (_ & -> & _ & _ & Htitle & _ & Htags & _).
    assert (task_invariant todo) as Htodo.
    { unfold task_invariant, TodoCreate.valid in *.
      rewrite Htitle, Htags.
      apply andb_prop in Hvalid as [H1 H2].
      apply Nat.leb_le in H1, H2.
      split; [lia|apply extract_tags_length]. }
    split; [done|]. apply Forall_app. split; [done|]. by apply Forall_singleton.
  - apply update_todo_Ok in Hrun as (todo0 & Hget & Hrow & ->).
    apply get_todo_Ok in Hget as (Hin & _).
    rewrite Forall_forall in Hinv. destruct (Hinv _ Hin) as [Htitle0 Htags0].
    destruct Hrow as (_ & _ & _ & _ & Htitle & _ & _ & _ & _ & Htags & _).
    assert (task_invariant todo) as Htodo.
    { unfold task_invariant, TodoUpdate.valid in *. split.
      - destruct (TodoUpdate.title data) as [|[t|]]; cbn in Htitle;
          [by injection Htitle as ->| |done].
        injection Htitle as ->.
        apply andb_prop in Hvalid as [H1 H2].
        apply Nat.leb_le in H1, H2. lia.
      - rewrite Htags. case_match; [apply extract_tags_length|done]. }
    split; [done|]. apply Forall_write_row; [|done].
    by apply Forall_forall.
Qed.

(** ** UUID strings round-trip *)

Section uuid_facts.
Implicit Types (s : str) (c : char) (n : N).

Lemma hex_digit_lower_hex d : (d < 16)%N → lower_hex (hex_digit d).
Proof.
  intros Hd. unfold lower_hex, hex_digit.
  destruct (N.ltb_spec d 10); lia.
Qed.

Lemma hex_value_digit d : (d < 16)%N → hex_value (hex_digit d) = Some d.
Proof.
  intros Hd. unfold hex_value, hex_digit.
  destruct (N.ltb_spec d 10).
  - rewrite (proj2 (N.leb_le 48 (48 + d))), (proj2 (N.leb_le (48 + d) 57))
      by lia.
    cbn. f_equal. lia.
  - replace ((48 <=? 87 + d)%N && (87 + d <=? 57)%N) with false
      by (symmetry; apply andb_false_iff; right; apply N.leb_gt; lia).
    rewrite (proj2 (N.leb_le 97 (87 + d))), (proj2 (N.leb_le (87 + d) 102))
      by lia.
    cbn. f_equal. lia.
Qed.

Lemma hex_fixed_length w n : length (hex_fixed w n) = w.
Proof.
  revert n. induction w as [|w IH]; intros n; [done|].
  cbn. rewrite length_app, IH. cbn. lia.
Qed.

Lemma hex_fixed_lower_hex w n : Forall lower_hex (hex_fixed w n).
Proof.
  revert n. induction w as [|w IH]; intros n; cbn; [done|].
  apply Forall_app. split; [apply IH|]. apply Forall_singleton.
  apply hex_digit_lower_hex. by apply N.mod_lt.
Qed.

Lemma int_hex_snoc s c :
  int_hex (s ++ [c])
  = n ← int_hex s; d ← hex_value c; Some (16 * n + d)%N.
Proof. unfold int_hex. by rewrite foldl_snoc. Qed.

Lemma int_hex_hex_fixed w n :
  int_hex (hex_fixed w n) = Some (n `mod` 16 ^ N.of_nat w)%N.
Proof.
  revert n. induction w as [|w IH]; intros n.
  - cbn. by rewrite N.mod_1_r.
  - cbn [hex_fixed]. rewrite int_hex_snoc, IH. cbn.
    rewrite hex_value_digit by (by apply N.mod_lt). cbn. f_equal.
    rewrite Nat2N.inj_succ, N.pow_succ_r'.
    rewrite N.Div0.mod_mul_r. lia.
Qed.

(** Characters that are neither hexadecimal digits nor hyphens are
    absent from [UUID_str], so the clean-up of [UUID_parse] finds
    nothing but the hyphens to remove. *)
Lemma remove_go_absent old c0 s :
  c0 ∉ s → remove_go (c0 :: old) 0 s = s.
Proof.
  induction s as [|c s IH]; intros Hc; [done|].
  apply not_elem_of_cons in Hc as [Hne Hc]. cbn.
  rewrite (proj2 (N.eqb_neq c0 c)) by done. cbn. by rewrite IH.
Qed.

Lemma lstrip_absent chars s :
  Forall (λ c, c ∉ chars) s → lstrip chars s = s.
Proof.
  destruct s as [|c s]; [done|]. intros [Hc _]%Forall_cons. cbn.
  by rewrite bool_decide_eq_false_2.
Qed.

Lemma strip_absent chars s : Forall (λ c, c ∉ chars) s → strip chars s = s.
Proof.
  intros Hs. unfold strip. rewrite (lstrip_absent _ s) by done.
  rewrite lstrip_absent by (by apply Forall_reverse).
  apply reverse_involutive.
Qed.

Lemma filter_lower_hex s :
  Forall lower_hex s → filter (λ c, c ≠ 45%N) s = s.
Proof.
  induction 1 as [|c s Hc _ IH]; [done|].
  rewrite filter_cons_True, IH; [done|]. unfold lower_hex in Hc. lia.
Qed.

Lemma UUID_str_chars u : Forall uuid_char (UUID_str u).
Proof.
  unfold UUID_str, slice.
  pose proof (hex_fixed_lower_hex 32 u) as Hh.
  assert (∀ l : str, Forall lower_hex l → Forall uuid_char l) as Hweak
    by (intros l Hl; eapply Forall_impl; [exact Hl|]; by left).
  assert (Forall uuid_char (lit "-")) as Hdash
    by (apply Forall_singleton; by right).
  repeat (apply Forall_app; split); try done; apply Hweak;
    repeat first [apply Forall_take | apply Forall_drop]; done.
Qed.

Lemma take_slices (h : str) :
  take 8 h ++ slice 8 12 h ++ slice 12 16 h ++ slice 16 20 h ++ drop 20 h
  = h.
Proof.
  unfold slice.
  replace (drop 20 h) with (drop 4 (drop 16 h)) by (by rewrite drop_drop).
  change (20 - 16)%nat with 4%nat. rewrite take_drop.
  replace (drop 16 h) with (drop 4 (drop 12 h)) by (by rewrite drop_drop).
  change (16 - 12)%nat with 4%nat. rewrite take_drop.
  replace (drop 12 h) with (drop 4 (drop 8 h)) by (by rewrite drop_drop).
  change (12 - 8)%nat with 4%nat. rewrite take_drop.
  apply take_drop.
Qed.

Lemma UUID_str_unhyphenated u :
  filter (λ c, c ≠ 45%N) (UUID_str u) = hex_fixed 32 u.
Proof.
  unfold UUID_str.
  pose proof (hex_fixed_lower_hex 32 u) as Hh.
  set (h := hex_fixed 32 u) in *.
  rewrite !filter_app.
  replace (filter (λ c, c ≠ 45%N) (lit "-")) with (@nil char) by done.
  unfold slice at 1 2 3.
  rewrite !filter_lower_hex
    by (repeat first [apply Forall_take | apply Forall_drop]; done).
  cbn [app]. apply take_slices.
Qed.

Lemma UUID_parse_str u : valid_uuid u → UUID_parse (UUID_str u) = Some u.
Proof.
  intros Hu. unfold UUID_parse, str_remove.
  pose proof (UUID_str_chars u) as Hchars.
  assert (∀ c0, ¬ uuid_char c0 → c0 ∉ UUID_str u) as Habsent.
  { intros c0 Hc0 Hin. rewrite Forall_forall in Hchars. by apply Hc0, Hchars. }
  assert (¬ uuid_char 117%N) as Hu117 by (unfold uuid_char, lower_hex; lia).
  change (lit "urn:") with (117%N :: lit "rn:").
  rewrite remove_go_absent by auto.
  change (lit "uuid:") with (117%N :: lit "uid:").
  rewrite remove_go_absent by auto.
  rewrite strip_absent.
  - rewrite UUID_str_unhyphenated, hex_fixed_length.
    rewrite bool_decide_eq_true_2 by done.
    rewrite int_hex_hex_fixed. f_equal. apply N.mod_small. exact Hu.
  - eapply Forall_impl; [exact Hchars|]. intros c Hc.
    change (lit "{}") with [123%N; 125%N].
    rewrite !not_elem_of_cons. split_and!; [| |apply not_elem_of_nil];
      intros ->; unfold uuid_char, lower_hex in Hc; lia.
Qed.

Lemma UUID_str_nonempty u : UUID_str u ≠ [].
Proof.
  intros Hnil. apply (f_equal (filter (λ c, c ≠ 45%N))) in Hnil.
  rewrite UUID_str_unhyphenated in Hnil.
  apply (f_equal length) in Hnil. by rewrite hex_fixed_length in Hnil.
Qed.

End uuid_facts.

Example UUID_str_sample :
  UUID_str 0x123e4567e89b12d3a456426614174000%N
  = lit "123e4567-e89b-12d3-a456-426614174000".
Proof. vm_compute. reflexivity. Qed.

(** ** Tokens *)

Section token_facts.
Context `{JOSE}.
Import Jwt.

Lemma timegm_mono (t t' : datetime) : t ≤ t' → timegm t ≤ timegm t'.
Proof. intros Ht. unfold timegm. by apply Z.div_le_mono. Qed.

Lemma encode_claims_lookup (claims : gmap str value) (k : str) :
  encode_claims claims !! k
  = v ← claims !! k;
    match v with
    | VDatetime t => if mem k time_claims then Some (VInt (timegm t))
                     else Some v
    | _ => Some v
    end.
Proof. unfold encode_claims. by rewrite map_lookup_imap. Qed.

(** The claim sets [jwt.encode] signs. *)
Lemma access_claims settings now issued_at user_id :
  let claims :=
    encode_claims (access_payload settings now issued_at user_id) in
  claims !! lit "sub" = Some (VStr (UUID_str user_id))
  ∧ claims !! lit "type" = Some (VStr (lit "access"))
  ∧ claims !! lit "exp" = Some (VInt (timegm (access_expire settings now)))
  ∧ claims !! lit "iat" = Some (VInt (timegm issued_at))
  ∧ claims !! lit "jti" = None.
Proof.
  unfold access_payload.
  generalize (UUID_str user_id) (access_expire settings now).
  intros sub expire. cbv zeta. rewrite !encode_claims_lookup.
  set (payload := list_to_map _).
  replace (payload !! lit "sub") with (Some (VStr sub))
    by (vm_compute; reflexivity).
  replace (payload !! lit "type") with (Some (VStr (lit "access")))
    by (vm_compute; reflexivity).
  replace (payload !! lit "exp") with (Some (VDatetime expire))
    by (vm_compute; reflexivity).
  replace (payload !! lit "iat") with (Some (VDatetime issued_at))
    by (vm_compute; reflexivity).
  replace (payload !! lit "jti") with (@None value)
    by (vm_compute; reflexivity).
  done.
Qed.

Lemma refresh_claims settings now issued_at jti user_id :
  let claims :=
    encode_claims (refresh_payload settings now issued_at jti user_id) in
  claims !! lit "sub" = Some (VStr (UUID_str user_id))
  ∧ claims !! lit "type" = Some (VStr (lit "refresh"))
  ∧ claims !! lit "exp" = Some (VInt (timegm (refresh_expire settings now)))
  ∧ claims !! lit "iat" = Some (VInt (timegm issued_at))
  ∧ claims !! lit "jti" = Some (VStr (UUID_str jti)).
Proof.
  unfold refresh_payload.
  generalize (UUID_str user_id) (UUID_str jti) (refresh_expire settings now).
  intros sub jti' expire. cbv zeta. rewrite !encode_claims_lookup.
  set (payload := list_to_map _).
  replace (payload !! lit "sub") with (Some (VStr sub))
    by (vm_compute; reflexivity).
  replace (payload !! lit "type") with (Some (VStr (lit "refresh")))
    by (vm_compute; reflexivity).
  replace (payload !! lit "exp") with (Some (VDatetime expire))
    by (vm_compute; reflexivity).
  replace (payload !! lit "iat") with (Some (VDatetime issued_at))
    by (vm_compute; reflexivity).
  replace (payload !! lit "jti") with (Some (VStr jti'))
    by (vm_compute; reflexivity).
  done.
Qed.

End token_facts.

Section verify_facts.
Context `{JOSE} (settings : Settings.t).
Import Jwt.

Lemma jwt_decode_encode now payload key alg :
  jwt_decode now (jwt_encode payload key alg) key [alg]
  = match validate_iat (encode_claims payload)
          ∪ validate_exp now (encode_claims payload)
          ∪ validate_sub (encode_claims payload)
          ∪ validate_jti (encode_claims payload) with
    | Some error => inl error
    | None => inr (encode_claims payload)
    end.
Proof.
  unfold jwt_decode, jwt_encode, mem.
  rewrite bool_decide_eq_true_2 by (apply list_elem_of_singleton; done).
  by rewrite bool_decide_eq_true_2.
Qed.

(** What [verify_token] answers on an issued access token, at any
    clock reading and for any expected type. *)
Lemma verify_access_token now issued_at user_id t token_type :
  verify_token settings t
    (create_access_token settings now issued_at user_id) token_type
  = if timegm (access_expire settings now) <? timegm t
    then Raise expired_error
    else if bool_decide (token_type = lit "access")
    then Ok (encode_claims (access_payload settings now issued_at user_id))
    else Raise (type_error token_type).
Proof.
  unfold verify_token, create_access_token. rewrite jwt_decode_encode.
  destruct (access_claims settings now issued_at user_id)
    as (Hsub & Htype & Hexp & Hiat & Hjti).
  remember (encode_claims _) as claims eqn:Hclaims. clear Hclaims.
  unfold validate_iat, validate_exp, validate_sub, validate_jti.
  rewrite Hsub, Hexp, Hiat, Hjti. cbn.
  destruct (timegm (access_expire settings now) <? timegm t); [done|]. cbn.
  rewrite Htype, Hsub.
  destruct (decide (token_type = lit "access")) as [->|Hne].
  - rewrite bool_decide_eq_false_2 by (by intros []).
    rewrite bool_decide_eq_true_2 by done.
    pose proof (UUID_str_nonempty user_id).
    by destruct (UUID_str user_id).
  - rewrite bool_decide_eq_true_2 by congruence.
    by rewrite bool_decide_eq_false_2.
Qed.

Lemma verify_refresh_token now issued_at jti user_id t token_type :
  verify_token settings t
    (create_refresh_token settings now issued_at jti user_id) token_type
  = if timegm (refresh_expire settings now) <? timegm t
    then Raise expired_error
    else if bool_decide (token_type = lit "refresh")
    then Ok (encode_claims
               (refresh_payload settings now issued_at jti user_id))
    else Raise (type_error token_type).
Proof.
  unfold verify_token, create_refresh_token. rewrite jwt_decode_encode.
  destruct (refresh_claims settings now issued_at jti user_id)
    as (Hsub & Htype & Hexp & Hiat & Hjti).
  remember (encode_claims _) as claims eqn:Hclaims. clear Hclaims.
  unfold validate_iat, validate_exp, validate_sub, validate_jti.
  rewrite Hsub, Hexp, Hiat, Hjti. cbn.
  destruct (timegm (refresh_expire settings now) <? timegm t); [done|]. cbn.
  rewrite Htype, Hsub.
  destruct (decide (token_type = lit "refresh")) as [->|Hne].
  - rewrite bool_decide_eq_false_2 by (by intros []).
    rewrite bool_decide_eq_true_2 by done.
    pose proof (UUID_str_nonempty user_id).
    by destruct (UUID_str user_id).
  - rewrite bool_decide_eq_true_2 by congruence.
    by rewrite bool_decide_eq_false_2.
Qed.

Lemma not_expired (expire t : datetime) :
  t ≤ expire → (timegm expire <? timegm t) = false.
Proof. intros Ht. apply Z.ltb_ge. by apply timegm_mono. Qed.

End verify_facts.

(** C2: a token verified no later than its expiry gives back the
    identity it was issued for: an access token under expected type
    "access", a refresh token under expected type "refresh". *)
Theorem issued_tokens_round_trip `{JOSE}
    (settings : Settings.t) (user_id jti : UUID)
    (now issued_at t : datetime) :
  valid_uuid user_id →
  t ≤ Jwt.access_expire settings now →
  t ≤ Jwt.refresh_expire settings now →
  Jwt.get_user_id_from_token settings t
    (Jwt.create_access_token settings now issued_at user_id) (lit "access")
  = Ok user_id
  ∧ Jwt.get_user_id_from_token settings t
      (Jwt.create_refresh_token settings now issued_at jti user_id)
      (lit "refresh")
    = Ok user_id.
Proof.
  intros Hu Haccess Hrefresh. unfold Jwt.get_user_id_from_token. split.
  - rewrite verify_access_token, not_expired by done.
    rewrite bool_decide_eq_true_2 by done.
    destruct (access_claims settings now issued_at user_id) as (Hsub & _).
    unfold mbind, result_bind. rewrite Hsub. by rewrite UUID_parse_str.
  - rewrite verify_refresh_token, not_expired by done.
    rewrite bool_decide_eq_true_2 by done.
    destruct (refresh_claims settings now issued_at jti user_id)
      as (Hsub & _).
    unfold mbind, result_bind. rewrite Hsub. by rewrite UUID_parse_str.
Qed.


(** ** Login failures *)

(** C3: a login with an unknown email and a login with a known email but
    a wrong password raise the same [AuthenticationError]; served with
    the same clock reading and client address, the two responses (status
    401, envelope, cookie, logged event) are equal, and neither changes
    the tables. *)
Theorem login_failures_are_indistinguishable `{UnicodeDB, JOSE, Password}
    (settings : Settings.t) (e : Env.t) (db1 db2 : Db.t)
    (unknown wrong : LoginRequest.t) (user : User.t) :
  UserService.get_by_email (Db.users db1) (LoginRequest.email unknown)
  = Ok None →
  UserService.get_by_email (Db.users db2) (LoginRequest.email wrong)
  = Ok (Some user) →
  verify_password (LoginRequest.password wrong) (User.password_hash user)
  = false →
  AuthService.authenticate_user settings e (Db.users db1)
    (LoginRequest.email unknown) (LoginRequest.password unknown)
  = Raise invalid_credentials
  ∧ AuthService.authenticate_user settings e (Db.users db2)
      (LoginRequest.email wrong) (LoginRequest.password wrong)
    = Raise invalid_credentials
  ∧ (Api.serve settings e db1 (Login unknown)).2
    = (Api.serve settings e db2 (Login wrong)).2
  ∧ Response.status_code (Api.serve settings e db1 (Login unknown)).2 = 401
  ∧ APIResponse.error
      (Response.content (Api.serve settings e db1 (Login unknown)).2)
    = Some (lit "Invalid credentials")
  ∧ (Api.serve settings e db1 (Login unknown)).1 = db1
  ∧ (Api.serve settings e db2 (Login wrong)).1 = db2.
Proof.
  intros Hunknown Hknown Hwrong.
  assert (AuthService.authenticate_user settings e (Db.users db1)
            (LoginRequest.email unknown) (LoginRequest.password unknown)
          = Raise invalid_credentials) as Hfirst.
  { unfold AuthService.authenticate_user. by rewrite Hunknown. }
  assert (AuthService.authenticate_user settings e (Db.users db2)
            (LoginRequest.email wrong) (LoginRequest.password wrong)
          = Raise invalid_credentials) as Hsecond.
  { unfold AuthService.authenticate_user. rewrite Hknown. cbn.
    by rewrite Hwrong. }
  unfold Api.serve, Api.endpoint, Api.login. rewrite Hfirst, Hsecond.
  split_and!; reflexivity.
Qed.

(** ** The response envelope *)

Section envelope_facts.
Context `{UnicodeDB, JOSE, Password} (settings : Settings.t) (e : Env.t).

Lemma endpoint_Ok db req log db' code content cookie :
  Api.endpoint settings e db req = (log, Ok (db', code, content, cookie)) →
  ∃ data, content = Api.ok_response e data
          ∧ (data = None ↔ answers_without_data req).
Proof.
  destruct req; cbn;
    unfold Api.signup, Api.login, Api.refresh_token, Api.logout,
      Api.list_todos, Api.create_todo, Api.get_todo, Api.update_todo,
      Api.delete_todo, Api.get_current_user_profile,
      Api.update_current_user_profile, Api.quiet, mbind, result_bind;
    intros Hres; repeat case_match; simplify_eq;
    eexists; (split; [reflexivity|]); cbn; naive_solver.
Qed.

Lemma exception_handler_content exc :
  ∃ text, (Api.exception_handler e exc).2
          = APIResponse.mk _ false None (Some text) (Env.responded_at e).
Proof.
  unfold Api.exception_handler. repeat case_match; cbn; eauto.
Qed.

End envelope_facts.


(** * Sample runs *)

Section sample_runs.
Local Existing Instance ascii_db.
Local Existing Instance plain_jose.
Local Existing Instance plain_password.

Example create_sample :
  TodoService.create_todo [] Sample.alice Sample.new_todo Sample.task 0
  = Ok ([Sample.todo], Sample.todo).
Proof. vm_compute. reflexivity. Qed.

Example retitle_sample :
  TodoService.update_todo [Sample.todo] Sample.task Sample.alice
    Sample.retitle 5
  = Ok ([Sample.retitled], Sample.retitled).
Proof. vm_compute. reflexivity. Qed.

Example delete_sample :
  TodoService.soft_delete_todo [Sample.todo] Sample.task Sample.alice 5 6
  = Ok [Sample.deleted].
Proof. vm_compute. reflexivity. Qed.

Example null_title_raises :
  TodoService.update_todo [Sample.todo] Sample.task Sample.alice
    (TodoUpdate.mk (Given None) Unset Unset Unset Unset) 5
  = Raise (OtherException (lit "AttributeError")).
Proof. vm_compute. reflexivity. Qed.

Example login_sample :
  is_ok (AuthService.authenticate_user Settings.default Sample.env
           [Sample.user] (lit "Alice@Example.com") (lit "pw12345678"))
  = true.
Proof. vm_compute. reflexivity. Qed.

Example get_me_sample :
  let credentials :=
    Jwt.create_access_token Settings.default 0 0 Sample.alice in
  Response.status_code
    (Api.serve Settings.default Sample.env Sample.db (GetMe credentials)).2
  = 200.
Proof. vm_compute. reflexivity. Qed.

Example fifty_rows_five_pages :
  let rows :=
    (λ i, Todo.mk (N.of_nat i) Sample.alice (lit "t") None PENDING MEDIUM
                  None [] 0 0 None) <$> seq 0 50 in
  (λ pd, (length (PaginatedData.items pd),
          PaginatedData.total pd, PaginatedData.total_pages pd))
  <$> (match TodoService.list_todos rows Sample.alice 2 10 None None None
               SortCreatedAt Desc 0 with
       | Ok pd => Some pd
       | Raise _ => None
       end)
  = Some (10%nat, 50, 5).
Proof. vm_compute. reflexivity. Qed.
End sample_runs.

(** * Counterexamples to the claims as first stated *)

Section counterexamples.
Local Existing Instance ascii_db.
Local Existing Instance plain_jose.
Local Existing Instance plain_password.





End counterexamples.

(** * The theorems at the sample runs *)

Section witnesses.
Local Existing Instance ascii_db.
Local Existing Instance plain_jose.
Local Existing Instance plain_password.

Lemma sample_primary_key : primary_key [Sample.todo].
Proof.
  unfold primary_key. apply (bool_decide_unpack _). vm_compute. exact I.
Defined.

Lemma sample_get :
  TodoService.get_todo [Sample.todo] Sample.task Sample.alice
  = Ok Sample.todo.
Proof. vm_compute. reflexivity. Defined.

Lemma foreign_task_is_not_found_witness :
  primary_key []
  ∧ TodoService.create_todo [] Sample.alice Sample.new_todo Sample.task 0
    = Ok ([Sample.todo], Sample.todo)
  ∧ rtc step [Sample.todo] [Sample.retitled]
  ∧ Sample.alice ≠ Sample.bob
  ∧ (99%N ∉ Todo.id <$> [Sample.retitled])
  ∧ TodoService.get_todo [Sample.retitled] Sample.task Sample.bob
    = Raise not_found
  ∧ TodoService.update_todo [Sample.retitled] Sample.task Sample.bob
      Sample.raise_priority 8
    = Raise not_found
  ∧ TodoService.soft_delete_todo [Sample.retitled] Sample.task Sample.bob 8 9
    = Raise not_found.
Proof.
  assert (primary_key []) as Hpk by apply NoDup_nil_2.
  assert (TodoService.create_todo [] Sample.alice Sample.new_todo
            Sample.task 0 = Ok ([Sample.todo], Sample.todo)) as Hcreate
    by (vm_compute; reflexivity).
  assert (rtc step [Sample.todo] [Sample.retitled]) as Hsteps.
  { apply rtc_once.
    apply (step_update _ Sample.task Sample.alice Sample.retitle 5 _
             Sample.retitled).
    vm_compute. reflexivity. }
  assert (Sample.alice ≠ Sample.bob) as Hne
    by (apply (bool_decide_unpack _); vm_compute; exact I).
  assert (99%N ∉ Todo.id <$> [Sample.retitled]) as Hmiss
    by (apply (bool_decide_unpack _); vm_compute; exact I).
  destruct (foreign_task_is_not_found [] [Sample.todo] [Sample.retitled]
              Sample.alice Sample.bob Sample.task 99%N Sample.new_todo 0
              Sample.todo Sample.raise_priority 8 9
              Hpk Hcreate Hsteps Hne Hmiss)
    as (Hget & Hupd & Hdel & _).
  split_and!; done.
Defined.

Lemma issued_tokens_round_trip_witness :
  valid_uuid Sample.alice
  ∧ 0 ≤ Jwt.access_expire Settings.default 0
  ∧ 0 ≤ Jwt.refresh_expire Settings.default 0
  ∧ Jwt.get_user_id_from_token Settings.default 0
      (Jwt.create_access_token Settings.default 0 0 Sample.alice)
      (lit "access")
    = Ok Sample.alice
  ∧ Jwt.get_user_id_from_token Settings.default 0
      (Jwt.create_refresh_token Settings.default 0 0 12%N Sample.alice)
      (lit "refresh")
    = Ok Sample.alice.
Proof.
  assert (valid_uuid Sample.alice) as Hu by (vm_compute; reflexivity).
  assert (0 ≤ Jwt.access_expire Settings.default 0) as Ha
    by (vm_compute; discriminate).
  assert (0 ≤ Jwt.refresh_expire Settings.default 0) as Hr
    by (vm_compute; discriminate).
  destruct (issued_tokens_round_trip Settings.default Sample.alice 12%N
              0 0 0 Hu Ha Hr) as [Haccess Hrefresh].
  split_and!; done.
Defined.

Lemma login_failures_are_indistinguishable_witness :
  let unknown :=
    LoginRequest.mk (lit "nobody@example.com") (lit "pw12345678") in
  let wrong :=
    LoginRequest.mk (lit "alice@example.com") (lit "WrongPassword") in
  UserService.get_by_email (Db.users Sample.db) (LoginRequest.email unknown)
  = Ok None
  ∧ UserService.get_by_email (Db.users Sample.db) (LoginRequest.email wrong)
    = Ok (Some Sample.user)
  ∧ verify_password (LoginRequest.password wrong)
      (User.password_hash Sample.user) = false
  ∧ (Api.serve Settings.default Sample.env Sample.db (Login unknown)).2
    = (Api.serve Settings.default Sample.env Sample.db (Login wrong)).2
  ∧ Response.status_code
      (Api.serve Settings.default Sample.env Sample.db (Login unknown)).2
    = 401.
Proof.
  intros unknown wrong.
  assert (UserService.get_by_email (Db.users Sample.db)
            (LoginRequest.email unknown) = Ok None) as Hunknown
    by (vm_compute; reflexivity).
  assert (UserService.get_by_email (Db.users Sample.db)
            (LoginRequest.email wrong) = Ok (Some Sample.user)) as Hknown
    by (vm_compute; reflexivity).
  assert (verify_password (LoginRequest.password wrong)
            (User.password_hash Sample.user) = false) as Hwrong
    by (vm_compute; reflexivity).
  destruct (login_failures_are_indistinguishable Settings.default
              Sample.env Sample.db Sample.db unknown wrong Sample.user
              Hunknown Hknown Hwrong)
    as (_ & _ & Hsame & Hcode & _).
  split_and!; done.
Defined.

Lemma soft_deleted_task_is_kept_but_absent_witness :
  primary_key [Sample.todo]
  ∧ TodoService.soft_delete_todo [Sample.todo] Sample.task Sample.alice 5 6
    = Ok [Sample.deleted]
  ∧ Todo.id <$> [Sample.deleted] = Todo.id <$> [Sample.todo]
  ∧ TodoService.get_todo [Sample.deleted] Sample.task Sample.alice
    = Raise not_found
  ∧ TodoService.soft_delete_todo [Sample.deleted] Sample.task Sample.alice
      8 9
    = Raise not_found.
Proof.
  assert (TodoService.soft_delete_todo [Sample.todo] Sample.task
            Sample.alice 5 6 = Ok [Sample.deleted]) as Hdel
    by (vm_compute; reflexivity).
  destruct (soft_deleted_task_is_kept_but_absent [Sample.todo]
              [Sample.deleted] Sample.task Sample.alice 5 6
              sample_primary_key Hdel)
    as (Hids & row & _ & _ & Hlater).
  destruct (Hlater [Sample.deleted] (rtc_refl _ _))
    as (_ & Hget & _ & Hagain & _).
  split_and!; [exact sample_primary_key|done|done|apply Hget|apply Hagain].
Defined.




Lemma writes_keep_task_invariant_witness :
  valid_write (UpdateTodo Sample.task Sample.alice Sample.retitle) = true
  ∧ Forall task_invariant [Sample.todo]
  ∧ run_write [Sample.todo]
      (UpdateTodo Sample.task Sample.alice Sample.retitle) 5
    = Ok ([Sample.retitled], Sample.retitled)
  ∧ task_invariant Sample.retitled.
Proof.
  assert (Forall task_invariant [Sample.todo]) as Hinv.
  { apply Forall_singleton. unfold task_invariant. vm_compute. lia. }
  assert (run_write [Sample.todo]
            (UpdateTodo Sample.task Sample.alice Sample.retitle) 5
          = Ok ([Sample.retitled], Sample.retitled)) as Hrun
    by (vm_compute; reflexivity).
  destruct (writes_keep_task_invariant [Sample.todo] [Sample.retitled]
              (UpdateTodo Sample.task Sample.alice Sample.retitle) 5
              Sample.retitled eq_refl Hinv Hrun) as [Htodo _].
  split_and!; done.
Defined.

Lemma update_recomputes_tags_witness :
  primary_key [Sample.todo]
  ∧ TodoService.get_todo [Sample.todo] Sample.task Sample.alice
    = Ok Sample.todo
  ∧ TodoService.update_todo [Sample.todo] Sample.task Sample.alice
      Sample.retitle 5
    = Ok ([Sample.retitled], Sample.retitled)
  ∧ TodoService.get_todo [Sample.retitled] Sample.task Sample.alice
    = Ok Sample.retitled
  ∧ Todo.tags Sample.retitled
    = AutoTags.extract_tags (lit "Buy milk") None.
Proof.
  assert (TodoService.update_todo [Sample.todo] Sample.task Sample.alice
            Sample.retitle 5
          = Ok ([Sample.retitled], Sample.retitled)) as Hupd
    by (vm_compute; reflexivity).
  destruct (update_recomputes_tags [Sample.todo] [Sample.retitled]
              Sample.task Sample.alice Sample.retitle 5 Sample.todo
              Sample.retitled sample_primary_key sample_get Hupd)
    as (Hstored & Hgiven & _).
  destruct (Hgiven eq_refl) as [Htags _].
  split_and!; [exact sample_primary_key|exact sample_get|done..].
Defined.

End witnesses.

(** * Further properties of the code *)

(** ** The keyword extractor *)

Section tag_facts.
Context `{UnicodeDB}.
Import AutoTags.

Lemma NoDup_fmap_filter {A B} (f : A → B) (P : A → Prop)
    `{∀ x, Decision (P x)} (l : list A) :
  NoDup (f <$> l) → NoDup (f <$> filter P l).
Proof.
  induction l as [|x l IH]; [done|].
  rewrite fmap_cons, NoDup_cons. intros [Hx Hl].
  rewrite filter_cons. case_decide; [|by apply IH].
  rewrite fmap_cons, NoDup_cons. split; [|by apply IH].
  intros (y & Hy & Hin)%list_elem_of_fmap.
  apply list_elem_of_filter in Hin as [_ Hin].
  apply Hx. rewrite Hy. by apply list_elem_of_fmap_2.
Qed.

Lemma category_names_NoDup : NoDup (fst <$> CATEGORY_KEYWORDS).
Proof. apply (bool_decide_unpack _). vm_compute. exact I. Qed.

Lemma matched_categories_NoDup words : NoDup (matched_categories words).
Proof.
  unfold matched_categories. apply NoDup_fmap_filter, category_names_NoDup.
Qed.

Lemma build_tags_NoDup matched ws tags :
  NoDup tags → NoDup (build_tags matched ws tags).
Proof.
  revert tags. induction ws as [|w ws IH]; intros tags Htags; [done|].
  cbn [build_tags].
  set (tags' := if negb (mem w tags)
                   && negb (existsb (λ kw, str_in w kw) matched)
                then tags ++ [w] else tags).
  assert (NoDup tags') as Hnext.
  { subst tags'. destruct (negb (mem w tags) && _) eqn:Hc; [|done].
    apply andb_prop in Hc as [Hmem%negb_true_iff _].
    apply NoDup_app. split_and!; [done| |apply NoDup_singleton].
    intros x Hx ->%list_elem_of_singleton.
    unfold mem in Hmem. by apply bool_decide_eq_false in Hmem. }
  destruct (5 <=? length tags')%nat; [exact Hnext|by apply IH].
Qed.

(** X1: [extract_tags] never returns the same tag twice. *)
Theorem tags_are_distinct title description :
  NoDup (extract_tags title description).
Proof.
  unfold extract_tags. eapply sublist_NoDup; [|apply sublist_take].
  apply build_tags_NoDup, matched_categories_NoDup.
Qed.

Lemma str_leb_total (x y : str) : str_leb x y = true ∨ str_leb y x = true.
Proof.
  revert y. induction x as [|a x IH]; intros [|b y]; cbn; auto.
  destruct (N.ltb_spec a b), (N.ltb_spec b a); auto; lia.
Qed.

Lemma str_leb_trans (x y z : str) :
  str_leb x y = true → str_leb y z = true → str_leb x z = true.
Proof.
  revert y z. induction x as [|a x IH]; intros [|b y] [|c z]; cbn; try done.
  destruct (N.ltb_spec a b), (N.ltb_spec b a), (N.ltb_spec b c),
    (N.ltb_spec c b), (N.ltb_spec a c), (N.ltb_spec c a);
    try done; try lia; eauto.
Qed.

Lemma str_le_total : Total str_le.
Proof. intros x y. apply str_leb_total. Qed.

Lemma str_le_trans : Transitive str_le.
Proof. intros x y z. apply str_leb_trans. Qed.

Local Existing Instance str_le_total.
Local Existing Instance str_le_trans.

Lemma StronglySorted_sublist {A} (R : relation A) (l k : list A) :
  l `sublist_of` k → StronglySorted R k → StronglySorted R l.
Proof.
  induction 1 as [|x l k Hsub IH|x l k Hsub IH]; intros Hk; [done|..].
  - apply StronglySorted_inv in Hk as [Hk Hx]. constructor; [by apply IH|].
    rewrite Forall_forall in Hx |- *. intros y Hy. apply Hx.
    by eapply sublist_subseteq.
  - apply StronglySorted_inv in Hk as [Hk _]. by apply IH.
Qed.

Lemma sublist_fmap_filter {A B} (f : A → B) (P : A → Prop)
    `{∀ x, Decision (P x)} (l : list A) :
  f <$> filter P l `sublist_of` f <$> l.
Proof.
  induction l as [|x l IH]; [done|].
  rewrite filter_cons. case_decide; cbn; by constructor.
Qed.

Lemma collect_words_elem ws acc w :
  w ∈ collect_words ws acc →
  w ∈ acc
  ∨ (∃ piece, piece ∈ ws ∧ w = filter (λ c, isalnum c = true) piece).
Proof.
  revert acc. induction ws as [|piece ws IH]; intros acc; cbn; [by left|].
  case_match.
  - intros [Hin|(p & Hp & ->)]%IH.
    + apply elem_of_app in Hin as [Hin| ->%list_elem_of_singleton];
        [by left|]. right. exists piece. split; [left|done].
    + right. exists p. split; [by right|done].
  - intros [Hin|(p & Hp & ->)]%IH; [by left|].
    right. exists p. split; [by right|done].
Qed.

Lemma build_tags_app matched ws tags :
  ∃ extra, build_tags matched ws tags = tags ++ extra
           ∧ extra `sublist_of` ws.
Proof.
  revert tags. induction ws as [|w ws IH]; intros tags.
  - exists []. by rewrite app_nil_r.
  - cbn [build_tags].
    set (tags' := if negb (mem w tags)
                     && negb (existsb (λ kw, str_in w kw) matched)
                  then tags ++ [w] else tags).
    assert (∃ first, tags' = tags ++ first ∧ first `sublist_of` [w])
      as (first & Htags' & Hfirst).
    { subst tags'. case_match.
      - by exists [w].
      - exists []. rewrite app_nil_r. split; [done|apply sublist_nil_l]. }
    destruct (5 <=? length tags')%nat.
    + exists first. split; [done|].
      change (w :: ws) with ([w] ++ ws). by apply sublist_inserts_r.
    + destruct (IH tags') as (extra & -> & Hextra).
      exists (first ++ extra). rewrite Htags', <- app_assoc. split; [done|].
      change (w :: ws) with ([w] ++ ws). by apply sublist_app.
Qed.

(** X2: the tags of [extract_tags] are category names, in the order of
    [CATEGORY_KEYWORDS], followed by words in ascending order. Each
    category has a keyword among the cleaned pieces of the lowercased
    text; each word is such a piece of at least four characters that is
    no stop word. *)
Theorem tags_are_categories_then_words title description :
  ∃ categories words,
    extract_tags title description = categories ++ words
    ∧ categories `sublist_of` (fst <$> CATEGORY_KEYWORDS)
    ∧ Forall (λ category,
        ∃ keywords keyword,
          (category, keywords) ∈ CATEGORY_KEYWORDS
          ∧ keyword ∈ keywords
          ∧ cleaned_piece (tag_text title description) keyword) categories
    ∧ StronglySorted str_le words
    ∧ Forall (λ word,
        (4 ≤ length word)%nat
        ∧ (word ∉ STOP_WORDS)
        ∧ cleaned_piece (tag_text title description) word) words.
Proof.
  unfold extract_tags.
  set (text := tag_text title description).
  set (found := collect_words (split text) []).
  assert (∀ w, w ∈ found → cleaned_piece text w) as Hfound.
  { intros w [Hin|Hw]%collect_words_elem; [by apply elem_of_nil in Hin|done]. }
  destruct (build_tags_app (matched_categories found)
              (significant_words found) (matched_categories found))
    as (extra & -> & Hextra).
  rewrite take_app.
  eexists _, _. split; [reflexivity|]. split_and!.
  - etrans; [apply sublist_take|]. apply sublist_fmap_filter.
  - apply Forall_forall. intros category Hcat%subseteq_take.
    unfold matched_categories in Hcat.
    apply list_elem_of_fmap in Hcat as ([c kws] & -> & Hck).
    apply list_elem_of_filter in Hck as [Hmatch Hck]. cbn in Hmatch.
    unfold intersects in Hmatch.
    apply existsb_exists in Hmatch as (kw & Hkw%list_elem_of_In & Hmem).
    exists kws, kw. split_and!; [done| |by apply Hfound].
    unfold mem in Hmem. by apply bool_decide_eq_true in Hmem.
  - eapply StronglySorted_sublist; [etrans; [apply sublist_take|exact Hextra]|].
    apply StronglySorted_merge_sort; apply _.
  - apply Forall_forall. intros word Hword%subseteq_take.
    apply (sublist_subseteq _ _ Hextra) in Hword.
    unfold significant_words in Hword.
    rewrite merge_sort_Permutation in Hword.
    apply list_elem_of_filter in Hword as [Hsig Hword].
    apply andb_prop in Hsig as [Hlen%Nat.leb_le Hstop%negb_true_iff].
    split_and!; [done| |by apply Hfound].
    unfold mem in Hstop. by apply bool_decide_eq_false in Hstop.
Qed.

End tag_facts.

(** ** The task service *)

Section todo_extras.
Context `{UnicodeDB}.
Implicit Types (s : table) (todo row : Todo.t).

Lemma get_todo_app_fresh s todo todo_id user_id :
  todo_id ≠ Todo.id todo →
  TodoService.get_todo (s ++ [todo]) todo_id user_id
  = TodoService.get_todo s todo_id user_id.
Proof.
  intros Hne. unfold TodoService.get_todo.
  rewrite filter_app, (filter_cons _ todo), decide_False, filter_nil, app_nil_r;
    [done|]. intros (Hid & _). congruence.
Qed.

Lemma get_todo_write_row_other s todo' todo_id user_id :
  todo_id ≠ Todo.id todo' →
  TodoService.get_todo (write_row s todo') todo_id user_id
  = TodoService.get_todo s todo_id user_id.
Proof.
  intros Hne. unfold TodoService.get_todo. f_equal. f_equal.
  unfold write_row. induction s as [|row s IH]; [done|].
  rewrite fmap_cons, !filter_cons, IH.
  destruct (decide (Todo.id row = Todo.id todo')) as [Heq|Hdiff].
  - rewrite !decide_False; [done|..]; intros (Hid & _); congruence.
  - done.
Qed.

(** X3: a task just created is found by its id under its owner, and
    the lookups of every other id answer as before. *)
Theorem created_task_is_found s s' user_id data new_id now todo :
  primary_key s →
  TodoService.create_todo s user_id data new_id now = Ok (s', todo) →
  TodoService.get_todo s' new_id user_id = Ok todo
  ∧ (∀ todo_id user_id',
       todo_id ≠ new_id →
       TodoService.get_todo s' todo_id user_id'
       = TodoService.get_todo s todo_id user_id').
Proof.
  intros Hpk Hcreate.
  pose proof (create_todo_primary_key _ _ _ _ _ _ _ Hpk Hcreate) as Hpk'.
  apply create_todo_Ok in Hcreate as (_ & -> & Hid & Hown & _ & _ & _ & Hnone).
  split.
  - rewrite <- Hid, <- Hown. apply get_todo_found; [done| |done].
    apply elem_of_app. right. by apply list_elem_of_singleton.
  - intros todo_id user_id' Hne. apply get_todo_app_fresh. congruence.
Qed.

(** X4: a successful update or soft delete of one task leaves the
    lookup of every other task id, by any user, as it was. *)
Theorem writes_leave_other_tasks_alone s s' todo_id user_id data now
    flushed_at todo' other user_id' :
  TodoService.update_todo s todo_id user_id data now = Ok (s', todo')
  ∨ TodoService.soft_delete_todo s todo_id user_id now flushed_at = Ok s' →
  other ≠ todo_id →
  TodoService.get_todo s' other user_id'
  = TodoService.get_todo s other user_id'.
Proof.
  intros [Hupd|Hdel] Hne.
  - apply update_todo_Ok in Hupd as (todo & Hget & (Hid & _) & ->).
    apply get_todo_Ok in Hget as (_ & Hid0 & _).
    apply get_todo_write_row_other. congruence.
  - apply soft_delete_todo_Ok in Hdel as (todo & todo1 & _ & -> & Hid & _).
    apply get_todo_write_row_other. congruence.
Qed.


End todo_extras.

(** ** Listing *)

Section list_extras.
Implicit Types (s : table) (todo row : Todo.t).

Lemma row_leb_total by_ (a b : Todo.t) :
  row_leb by_ a b = true ∨ row_leb by_ b a = true.
Proof.
  destruct by_; cbn.
  - destruct (Z.leb_spec (Todo.created_at a) (Todo.created_at b)),
      (Z.leb_spec (Todo.created_at b) (Todo.created_at a)); auto; lia.
  - destruct (Todo.due_date a) as [x|], (Todo.due_date b) as [y|]; cbn; auto.
    destruct (Z.leb_spec x y), (Z.leb_spec y x); auto; lia.
  - destruct (Todo.priority a), (Todo.priority b); vm_compute; auto.
Qed.

Lemma row_leb_trans by_ (a b c : Todo.t) :
  row_leb by_ a b = true → row_leb by_ b c = true → row_leb by_ a c = true.
Proof.
  destruct by_; cbn.
  - rewrite !Z.leb_le. lia.
  - destruct (Todo.due_date a) as [x|], (Todo.due_date b) as [y|],
      (Todo.due_date c) as [z|]; cbn; try done.
    rewrite !Z.leb_le. lia.
  - destruct (Todo.priority a), (Todo.priority b), (Todo.priority c);
      vm_compute; congruence.
Qed.

Lemma row_le_total by_ : Total (row_le by_).
Proof. intros a b. apply row_leb_total. Qed.

Lemma row_le_trans by_ : Transitive (row_le by_).
Proof. intros a b c. apply row_leb_trans. Qed.

Lemma flip_row_le_total by_ : Total (flip (row_le by_)).
Proof. intros a b. destruct (row_leb_total by_ b a); [left|right]; done. Qed.

Lemma flip_row_le_trans by_ : Transitive (flip (row_le by_)).
Proof. intros a b c Hab Hbc. by apply (row_leb_trans by_ c b a). Qed.

Local Existing Instance row_le_total.
Local Existing Instance row_le_trans.
Local Existing Instance flip_row_le_total.
Local Existing Instance flip_row_le_trans.

Lemma order_by_sorted by_ dir rows :
  StronglySorted (sorted_by by_ dir) (order_by by_ dir rows).
Proof. destruct dir; cbn; apply StronglySorted_merge_sort; apply _. Qed.

Lemma StronglySorted_take_drop {A} (R : relation A) (l : list A) n m :
  StronglySorted R l → StronglySorted R (take n (drop m l)).
Proof.
  intros Hl. rewrite <- (take_drop m l) in Hl.
  apply StronglySorted_app_1_r in Hl.
  rewrite <- (take_drop n (drop m l)) in Hl.
  by apply StronglySorted_app_1_l in Hl.
Qed.

(** X6: the items of a page are in the requested order: each row
    stands before the rows after it under the sort key, ascending or
    descending as asked. *)
Theorem listing_is_sorted s user_id page per_page status priority due
    sort_by sort_order today pd :
  TodoService.list_todos s user_id page per_page status priority due sort_by
                         sort_order today = Ok pd →
  ∃ rows, PaginatedData.items pd = TodoResponse.model_validate <$> rows
          ∧ StronglySorted (sorted_by sort_by sort_order) rows.
Proof.
  intros (_ & _ & _ & ->)%list_todos_Ok. eexists. split; [reflexivity|].
  apply StronglySorted_take_drop, order_by_sorted.
Qed.

(** X7: every item of a listing belongs to the requester, is the image
    of a stored row that is not soft-deleted, and meets each filter the
    request carried: status, priority, due today, due later. *)
Theorem listing_shows_only_own_matching_tasks s user_id page per_page status
    priority due sort_by sort_order today pd :
  TodoService.list_todos s user_id page per_page status priority due sort_by
                         sort_order today = Ok pd →
  Forall (λ item,
    TodoResponse.user_id item = user_id
    ∧ (∀ st, status = Some st → TodoResponse.status item = st)
    ∧ (∀ pr, priority = Some pr → TodoResponse.priority item = pr)
    ∧ (due = Some DueToday →
       ∃ d, TodoResponse.due_date item = Some d
            ∧ today_start today ≤ d ≤ today_end today)
    ∧ (due = Some DueUpcoming →
       ∃ d, TodoResponse.due_date item = Some d ∧ today_end today < d)
    ∧ ∃ row, row ∈ s ∧ Todo.deleted_at row = None
             ∧ item = TodoResponse.model_validate row)
    (PaginatedData.items pd).
Proof.
  intros Hlist. apply Forall_forall. intros item Hitem.
  destruct (list_todos_items _ _ _ _ _ _ _ _ _ _ _ _ Hlist Hitem)
    as (row & Hrow & (Hu & Hnone & Hst & Hpr & Hdue) & ->).
  cbn. split_and!.
  - done.
  - by intros st ->.
  - by intros pr ->.
  - intros ->. destruct (Todo.due_date row) as [d|]; [|done]. by exists d.
  - intros ->. destruct (Todo.due_date row) as [d|]; [|done]. by exists d.
  - by exists row.
Qed.





End list_extras.

(** ** Tokens *)

Section jwt_extras.
Context `{JOSE} (settings : Settings.t).





Lemma get_user_id_from_access_token now issued_at user_id t :
  valid_uuid user_id →
  Jwt.get_user_id_from_token settings t
    (Jwt.create_access_token settings now issued_at user_id) (lit "access")
  = if timegm (Jwt.access_expire settings now) <? timegm t
    then Raise expired_error else Ok user_id.
Proof.
  intros Hu. unfold Jwt.get_user_id_from_token.
  rewrite verify_access_token.
  destruct (timegm (Jwt.access_expire settings now) <? timegm t); [done|].
  rewrite bool_decide_eq_true_2 by done.
  destruct (access_claims settings now issued_at user_id) as (Hsub & _).
  unfold mbind, result_bind. rewrite Hsub. by rewrite UUID_parse_str.
Qed.

Lemma get_user_id_from_refresh_token now issued_at jti user_id t :
  valid_uuid user_id →
  Jwt.get_user_id_from_token settings t
    (Jwt.create_refresh_token settings now issued_at jti user_id)
    (lit "refresh")
  = if timegm (Jwt.refresh_expire settings now) <? timegm t
    then Raise expired_error else Ok user_id.
Proof.
  intros Hu. unfold Jwt.get_user_id_from_token.
  rewrite verify_refresh_token.
  destruct (timegm (Jwt.refresh_expire settings now) <? timegm t); [done|].
  rewrite bool_decide_eq_true_2 by done.
  destruct (refresh_claims settings now issued_at jti user_id) as (Hsub & _).
  unfold mbind, result_bind. rewrite Hsub. by rewrite UUID_parse_str.
Qed.

Lemma Compact_claims alg claims sig alg' claims' sig' :
  Compact alg claims sig = Compact alg' claims' sig' → claims = claims'.
Proof. intros Heq. injection Heq; auto. Qed.


(** X11: an issued token names its user through the whole second of its
    expiry and no longer: the identity comes back exactly while the
    second of the clock is not after the second of the expiry, and from
    the next second on the token fails as expired, whatever type is
    expected. *)
Theorem issued_tokens_expire_by_the_second now issued_at jti user_id t :
  valid_uuid user_id →
  (Jwt.get_user_id_from_token settings t
     (Jwt.create_access_token settings now issued_at user_id) (lit "access")
   = Ok user_id
   ↔ timegm t ≤ timegm (Jwt.access_expire settings now))
  ∧ (Jwt.get_user_id_from_token settings t
       (Jwt.create_refresh_token settings now issued_at jti user_id)
       (lit "refresh")
     = Ok user_id
     ↔ timegm t ≤ timegm (Jwt.refresh_expire settings now))
  ∧ (timegm (Jwt.access_expire settings now) < timegm t →
     ∀ token_type,
       Jwt.get_user_id_from_token settings t
         (Jwt.create_access_token settings now issued_at user_id) token_type
       = Raise expired_error)
  ∧ (timegm (Jwt.refresh_expire settings now) < timegm t →
     ∀ token_type,
       Jwt.get_user_id_from_token settings t
         (Jwt.create_refresh_token settings now issued_at jti user_id)
         token_type
       = Raise expired_error).
Proof.
  intros Hu. split_and!.
  - rewrite get_user_id_from_access_token by done.
    destruct (Z.ltb_spec (timegm (Jwt.access_expire settings now))
                (timegm t)); split; [intros; discriminate|lia|lia|done].
  - rewrite get_user_id_from_refresh_token by done.
    destruct (Z.ltb_spec (timegm (Jwt.refresh_expire settings now))
                (timegm t)); split; [intros; discriminate|lia|lia|done].
  - intros Hlate%Z.ltb_lt token_type. unfold Jwt.get_user_id_from_token.
    by rewrite verify_access_token, Hlate.
  - intros Hlate%Z.ltb_lt token_type. unfold Jwt.get_user_id_from_token.
    by rewrite verify_refresh_token, Hlate.
Qed.

(** X12: an access token and a refresh token are never the same string,
    whoever they were issued for and whenever. *)
Theorem access_and_refresh_tokens_differ now issued_at user_id now'
    issued_at' jti user_id' :
  Jwt.create_access_token settings now issued_at user_id
  ≠ Jwt.create_refresh_token settings now' issued_at' jti user_id'.
Proof.
  unfold Jwt.create_access_token, Jwt.create_refresh_token, jwt_encode.
  intros Hclaims%Compact_claims.
  destruct (access_claims settings now issued_at user_id) as (_ & Ha & _).
  destruct (refresh_claims settings now' issued_at' jti user_id')
    as (_ & Hr & _).
  rewrite Hclaims, Hr in Ha. discriminate Ha.
Qed.

End jwt_extras.

(** ** Users and the gate of the endpoints *)

Section user_facts.
Context `{UnicodeDB}.
Implicit Types (users : list User.t) (user row : User.t).

Lemma scalar_one_or_none_Some {A} (rows : list A) (x : A) :
  scalar_one_or_none rows = Ok (Some x) → rows = [x].
Proof. destruct rows as [|y [|z rows]]; cbn; congruence. Qed.

Lemma scalar_one_or_none_None {A} (rows : list A) :
  scalar_one_or_none rows = Ok None → rows = [].
Proof. destruct rows as [|y [|z rows]]; cbn; congruence. Qed.

Lemma filter_by_key {A K} (f : A → K) `{EqDecision K} (P : A → Prop)
    `{∀ x, Decision (P x)} (l : list A) (k : K) :
  NoDup (f <$> l) →
  filter (λ x, f x = k ∧ P x) l = []
  ∨ ∃ x, filter (λ x, f x = k ∧ P x) l = [x].
Proof.
  induction l as [|x l IH]; intros Hnd; [by left|].
  rewrite fmap_cons in Hnd. apply NoDup_cons in Hnd as [Hx Hnd].
  rewrite filter_cons. case_decide as Hc; [|by apply IH].
  right. exists x. f_equal.
  destruct (filter _ l) as [|y l'] eqn:Hf; [done|]. exfalso.
  assert (y ∈ filter (λ x, f x = k ∧ P x) l) as Hy by (rewrite Hf; left).
  apply list_elem_of_filter in Hy as [[Hyk _] Hyl].
  apply Hx. destruct Hc as [-> _]. rewrite <- Hyk.
  by apply list_elem_of_fmap_2.
Qed.

Lemma get_by_id_Some users user_id user :
  UserService.get_by_id users user_id = Ok (Some user) →
  user ∈ users ∧ User.id user = user_id ∧ User.deleted_at user = None.
Proof.
  unfold UserService.get_by_id. intros Hone%scalar_one_or_none_Some.
  assert (user ∈ filter (λ row, User.id row = user_id
                                ∧ User.deleted_at row = None) users) as Hin
    by (rewrite Hone; left).
  apply list_elem_of_filter in Hin as [[? ?] ?]. done.
Qed.

Lemma get_by_id_found users user :
  NoDup (User.id <$> users) → user ∈ users → User.deleted_at user = None →
  UserService.get_by_id users (User.id user) = Ok (Some user).
Proof.
  intros Hnd Hin Hnone. unfold UserService.get_by_id.
  assert (user ∈ filter (λ row, User.id row = User.id user
                                ∧ User.deleted_at row = None) users) as Hx
    by (by apply list_elem_of_filter).
  destruct (filter_by_key User.id (λ row, User.deleted_at row = None) users
              (User.id user) Hnd) as [Hf|[row Hf]]; rewrite Hf in Hx |- *.
  - by apply elem_of_nil in Hx.
  - by apply list_elem_of_singleton in Hx as ->.
Qed.

Lemma get_by_id_total users user_id :
  NoDup (User.id <$> users) →
  UserService.get_by_id users user_id = Ok None
  ∨ ∃ user, UserService.get_by_id users user_id = Ok (Some user).
Proof.
  intros Hnd. unfold UserService.get_by_id.
  destruct (filter_by_key User.id (λ row, User.deleted_at row = None) users
              user_id Hnd) as [Hf|[row Hf]]; rewrite Hf; eauto.
Qed.

Lemma get_by_id_missing users user_id :
  NoDup (User.id <$> users) →
  (∀ row, row ∈ users → User.id row = user_id →
          User.deleted_at row ≠ None) →
  UserService.get_by_id users user_id = Ok None.
Proof.
  intros Hnd Hno.
  destruct (get_by_id_total users user_id Hnd) as [?|[user Hget]]; [done|].
  apply get_by_id_Some in Hget as (Hin & Hid & Hnone).
  by destruct (Hno user Hin Hid).
Qed.

Lemma get_by_email_Some users email user :
  UserService.get_by_email users email = Ok (Some user) →
  user ∈ users ∧ User.email user = lower email
  ∧ User.deleted_at user = None.
Proof.
  unfold UserService.get_by_email. intros Hone%scalar_one_or_none_Some.
  assert (user ∈ filter (λ row, User.email row = lower email
                                ∧ User.deleted_at row = None) users) as Hin
    by (rewrite Hone; left).
  apply list_elem_of_filter in Hin as [[? ?] ?]. done.
Qed.

End user_facts.

Section gate_extras.
Context `{UnicodeDB, JOSE} (settings : Settings.t).
Implicit Types (users : list User.t) (user row : User.t).


(** X14: an unexpired access token whose user is absent or soft-deleted
    is refused with "User not found". *)
Theorem gate_rejects_tokens_of_missing_users (e : Env.t) users now issued_at
    user_id :
  NoDup (User.id <$> users) →
  valid_uuid user_id →
  Env.now e ≤ Jwt.access_expire settings now →
  (∀ row, row ∈ users → User.id row = user_id →
          User.deleted_at row ≠ None) →
  Dependencies.get_current_user settings e users
    (Jwt.create_access_token settings now issued_at user_id)
  = Raise user_not_found.
Proof.
  intros Hnd Hu Ht Hno. unfold Dependencies.get_current_user.
  rewrite get_user_id_from_access_token, not_expired by done.
  by rewrite (get_by_id_missing users user_id Hnd Hno).
Qed.

(** X15: [get_current_user] refuses every issued refresh token and
    [get_refresh_token_user_id] every issued access token, each with an
    [AuthenticationError]. *)
Theorem gate_rejects_the_other_kind_of_token (e : Env.t) users now issued_at
    jti user_id :
  (∃ message,
     Dependencies.get_current_user settings e users
       (Jwt.create_refresh_token settings now issued_at jti user_id)
     = Raise (AuthenticationError message))
  ∧ (∃ message,
       Dependencies.get_refresh_token_user_id settings e
         (Some (Jwt.create_access_token settings now issued_at user_id))
       = Raise (AuthenticationError message)).
Proof.
  assert (bool_decide (lit "refresh" = lit "access") = false) as Hra
    by (apply bool_decide_eq_false_2; discriminate).
  assert (bool_decide (lit "access" = lit "refresh") = false) as Har
    by (apply bool_decide_eq_false_2; discriminate).
  split.
  - unfold Dependencies.get_current_user, Jwt.get_user_id_from_token.
    rewrite verify_refresh_token, Har.
    destruct (_ <? _); cbn; eauto.
  - unfold Dependencies.get_refresh_token_user_id, Jwt.get_user_id_from_token,
      Jwt.create_access_token, jwt_encode.
    fold (jwt_encode (Jwt.access_payload settings now issued_at user_id)
            (Settings.jwt_secret_key settings)
            (Settings.jwt_algorithm settings)).
    fold (Jwt.create_access_token settings now issued_at user_id).
    rewrite verify_access_token, Hra.
    destruct (_ <? _); cbn; eauto.
Qed.

End gate_extras.

(** ** Registration, login and rotation *)

Section auth_extras.
Context `{UnicodeDB, JOSE, Password} (settings : Settings.t).
Implicit Types (users : list User.t) (user row : User.t).

Lemma authenticate_user_Ok (e : Env.t) users email password user token_data
    refresh_token :
  AuthService.authenticate_user settings e users email password
  = Ok (user, token_data, refresh_token) →
  UserService.get_by_email users email = Ok (Some user)
  ∧ verify_password password (User.password_hash user) = true
  ∧ (token_data, refresh_token)
    = AuthService.create_tokens settings e (User.id user).
Proof.
  unfold AuthService.authenticate_user.
  destruct (UserService.get_by_email users email) as [[found|]|exc];
    cbn; [|intros; discriminate..].
  destruct (verify_password password (User.password_hash found)) eqn:Hpw;
    cbn; [|intros; discriminate].
  intros Heq. injection Heq as -> <- <-. done.
Qed.

(** X16: a login succeeds only for a stored user that is not
    soft-deleted, whose e-mail is the lowercased e-mail of the request
    and whose hash verifies the password. *)
Theorem login_needs_an_active_account_and_its_password (e : Env.t) users
    email password user token_data refresh_token :
  AuthService.authenticate_user settings e users email password
  = Ok (user, token_data, refresh_token) →
  user ∈ users
  ∧ User.deleted_at user = None
  ∧ User.email user = lower email
  ∧ verify_password password (User.password_hash user) = true.
Proof.
  intros (Hget & Hpw & _)%authenticate_user_Ok.
  apply get_by_email_Some in Hget as (Hin & Hemail & Hnone). done.
Qed.

(** X17: until they expire, the access token of a login resolves to the
    logged-in user in [get_current_user] and the refresh token to its id
    in [get_refresh_token_user_id]. *)
Theorem login_tokens_pass_the_gate (e e' : Env.t) users email password user
    token_data refresh_token :
  NoDup (User.id <$> users) →
  AuthService.authenticate_user settings e users email password
  = Ok (user, token_data, refresh_token) →
  valid_uuid (User.id user) →
  Env.now e' ≤ Jwt.access_expire settings (Env.now e) →
  Env.now e' ≤ Jwt.refresh_expire settings (Env.now e) →
  Dependencies.get_current_user settings e' users
    (TokenData.access_token token_data) = Ok user
  ∧ Dependencies.get_refresh_token_user_id settings e' (Some refresh_token)
    = Ok (User.id user).
Proof.
  intros Hnd (Hget & _ & Htokens)%authenticate_user_Ok Hu Ha Hr.
  apply get_by_email_Some in Hget as (Hin & _ & Hnone).
  unfold AuthService.create_tokens in Htokens. injection Htokens as -> ->.
  split.
  - unfold Dependencies.get_current_user. cbn [TokenData.access_token].
    rewrite get_user_id_from_access_token, not_expired by done.
    rewrite (get_by_id_found users user Hnd Hin Hnone). cbn.
    unfold User.is_deleted. by rewrite bool_decide_eq_false_2 by (by intros []).
  - unfold Dependencies.get_refresh_token_user_id, Jwt.create_refresh_token,
      jwt_encode.
    fold (jwt_encode (Jwt.refresh_payload settings (Env.now e)
                        (Env.issued_at e) (Env.new_jti e) (User.id user))
            (Settings.jwt_secret_key settings)
            (Settings.jwt_algorithm settings)).
    fold (Jwt.create_refresh_token settings (Env.now e) (Env.issued_at e)
            (Env.new_jti e) (User.id user)).
    by rewrite get_user_id_from_refresh_token, not_expired by done.
Qed.

Lemma register_user_Ok (e : Env.t) users email username password users' user
    token_data refresh_token :
  AuthService.register_user settings e users email username password
  = Ok (users', (user, token_data, refresh_token)) →
  UserService.get_by_email users email = Ok None
  ∧ UserService.get_by_username users username = Ok None
  ∧ users' = users ++ [user]
  ∧ User.id user = Env.new_id e
  ∧ User.email user = lower email
  ∧ User.username user = username
  ∧ User.password_hash user = hash_password (Env.salt e) password
  ∧ User.deleted_at user = None.
Proof.
  unfold AuthService.register_user, UserService.create.
  destruct (UserService.get_by_email users email) as [[?|]|?];
    cbn; [intros; discriminate| |intros; discriminate].
  destruct (UserService.get_by_username users username) as [[?|]|?];
    cbn; [intros; discriminate| |intros; discriminate].
  destruct (UserService.unique_violation users _ None);
    cbn; [intros; discriminate|].
  intros Heq. injection Heq as <- <- _ _. done.
Qed.

Lemma get_by_email_app users user email :
  UserService.get_by_email users email = Ok None →
  User.email user = lower email → User.deleted_at user = None →
  UserService.get_by_email (users ++ [user]) email = Ok (Some user).
Proof.
  unfold UserService.get_by_email.
  intros Hnone%scalar_one_or_none_None Hemail Hactive.
  by rewrite filter_app, Hnone, (filter_cons _ user), decide_True.
Qed.

(** X18: if [verify_password] accepts what [hash_password] made, a user
    who registered can log in with the same e-mail and password. *)
Theorem registered_user_can_log_in (e e' : Env.t) users email username
    password users' user token_data refresh_token :
  (∀ salt plain, verify_password plain (hash_password salt plain) = true) →
  AuthService.register_user settings e users email username password
  = Ok (users', (user, token_data, refresh_token)) →
  ∃ token_data' refresh_token',
    AuthService.authenticate_user settings e' users' email password
    = Ok (user, token_data', refresh_token').
Proof.
  intros Hlaw (Hfree & _ & -> & _ & Hemail & _ & Hhash & Hactive)%register_user_Ok.
  unfold AuthService.authenticate_user.
  rewrite (get_by_email_app users user email Hfree Hemail Hactive). cbn.
  rewrite Hhash, Hlaw. cbn. eauto.
Qed.

(** X19: after a registration, another with the same e-mail up to case
    is refused with "Email already registered", and one with a free
    e-mail and the same username with "Username already taken"; both are
    conflicts, status 409. *)
Theorem second_registration_conflicts (e e' : Env.t) users email username
    password users' user token_data refresh_token email' username'
    password' :
  AuthService.register_user settings e users email username password
  = Ok (users', (user, token_data, refresh_token)) →
  (lower email' = lower email →
   AuthService.register_user settings e' users' email' username' password'
   = Raise (ConflictError (lit "Email already registered")))
  ∧ (UserService.get_by_email users' email' = Ok None →
     username' = username →
     AuthService.register_user settings e' users' email' username' password'
     = Raise (ConflictError (lit "Username already taken")))
  ∧ status_code (ConflictError (lit "Email already registered")) = Some 409
  ∧ status_code (ConflictError (lit "Username already taken")) = Some 409.
Proof.
  intros (Hfree & Hname & -> & _ & Hemail & Husername & _ & Hactive)%register_user_Ok.
  split_and!; [| |done..].
  - intros Hsame. unfold AuthService.register_user, UserService.create.
    assert (UserService.get_by_email (users ++ [user]) email'
            = Ok (Some user)) as ->; [|done].
    unfold UserService.get_by_email in *. rewrite Hsame.
    apply scalar_one_or_none_None in Hfree.
    by rewrite filter_app, Hfree, (filter_cons _ user), decide_True.
  - intros Hfree' ->. unfold AuthService.register_user, UserService.create.
    rewrite Hfree'. cbn.
    assert (UserService.get_by_username (users ++ [user]) username
            = Ok (Some user)) as ->; [|done].
    unfold UserService.get_by_username in *.
    apply scalar_one_or_none_None in Hname.
    by rewrite filter_app, Hname, (filter_cons _ user), decide_True.
Qed.

(** X20: with user ids unique, [refresh_tokens] issues a new pair for
    the id exactly when an active user has it, and fails with "User not
    found" otherwise. *)
Theorem rotation_needs_an_active_user (e : Env.t) users user_id :
  NoDup (User.id <$> users) →
  match AuthService.refresh_tokens settings e users user_id with
  | Ok (token_data, refresh_token) =>
      (∃ user, user ∈ users ∧ User.id user = user_id
               ∧ User.deleted_at user = None)
      ∧ (token_data, refresh_token)
        = AuthService.create_tokens settings e user_id
  | Raise exc => exc = user_not_found
                 ∧ ∀ row, row ∈ users → User.id row = user_id →
                          User.deleted_at row ≠ None
  end.
Proof.
  intros Hnd. unfold AuthService.refresh_tokens.
  destruct (get_by_id_total users user_id Hnd) as [Hget|[user Hget]];
    rewrite Hget; cbn.
  - split; [done|]. intros row Hin Hid Hnone.
    rewrite <- Hid in Hget.
    by rewrite (get_by_id_found users row Hnd Hin Hnone) in Hget.
  - apply get_by_id_Some in Hget as (Hin & <- & Hnone).
    unfold User.is_deleted. rewrite bool_decide_eq_false_2 by (by intros []).
    split; [by exists user|done].
Qed.

End auth_extras.

Section rename_extras.
Context `{UnicodeDB, JOSE, Password} (settings : Settings.t).
Implicit Types (users : list User.t) (user row : User.t).

Lemma filter_fmap_stable {A} (P : A → Prop) `{∀ x, Decision (P x)}
    (f : A → A) (l : list A) :
  (∀ x, x ∈ l → P (f x) ↔ P x) →
  filter P (f <$> l) = f <$> filter P l.
Proof.
  induction l as [|x l IH]; intros Hstable; [done|].
  rewrite fmap_cons, !filter_cons.
  rewrite IH by (intros y Hy; apply Hstable; by right).
  destruct (decide (P x)) as [Hx|Hx].
  - rewrite decide_True by (apply Hstable; [left|done]). done.
  - rewrite decide_False; [done|]. intros Hfx. apply Hx.
    apply Hstable; [left|done].
Qed.

Lemma NoDup_fmap_eq {A K} (f : A → K) (l : list A) (x y : A) :
  NoDup (f <$> l) → x ∈ l → y ∈ l → f x = f y → x = y.
Proof.
  induction l as [|z l IH]; intros Hnd Hx Hy Heq.
  - by apply elem_of_nil in Hx.
  - rewrite fmap_cons in Hnd. apply NoDup_cons in Hnd as [Hz Hnd].
    apply elem_of_cons in Hx as [->|Hx];
      apply elem_of_cons in Hy as [->|Hy]; auto.
    + exfalso. apply Hz. rewrite Heq. by apply list_elem_of_fmap_2.
    + exfalso. apply Hz. rewrite <- Heq. by apply list_elem_of_fmap_2.
Qed.

Lemma update_username_Ok users user_id new_username flushed_at users' user' :
  UserService.update_username users user_id new_username flushed_at
  = Ok (users', user') →
  User.id user' = user_id
  ∧ User.username user' = new_username
  ∧ ∃ user, UserService.get_by_id users user_id = Ok (Some user)
            ∧ User.email user' = User.email user
            ∧ User.password_hash user' = User.password_hash user
            ∧ User.created_at user' = User.created_at user.
Proof.
  unfold UserService.update_username.
  destruct (UserService.get_by_id users user_id) as [[user|]|] eqn:Hget;
    cbn; [|intros; discriminate..].
  apply get_by_id_Some in Hget as (_ & Hid & _).
  destruct (UserService.get_by_username users new_username) as [existing|];
    cbn; [|intros; discriminate].
  destruct (if existing is Some other
            then bool_decide (User.id other ≠ user_id) else false);
    [intros; discriminate|].
  destruct (UserService.unique_violation users _ _); [intros; discriminate|].
  intros Heq. injection Heq as _ <-. cbn. split_and!; [done..|].
  exists user. split_and!; try done.
Qed.

Lemma update_username_rows users user_id new_username flushed_at users' user' :
  UserService.update_username users user_id new_username flushed_at
  = Ok (users', user') →
  users' = (λ row, if decide (User.id row = user_id) then user' else row)
           <$> users
  ∧ User.deleted_at user' = None.
Proof.
  unfold UserService.update_username.
  destruct (UserService.get_by_id users user_id) as [[user|]|] eqn:Hget;
    cbn; [|intros; discriminate..].
  apply get_by_id_Some in Hget as (_ & Hid & Hactive).
  destruct (UserService.get_by_username users new_username) as [existing|];
    cbn; [|intros; discriminate].
  destruct (if existing is Some other
            then bool_decide (User.id other ≠ user_id) else false);
    [intros; discriminate|].
  destruct (UserService.unique_violation users _ _); [intros; discriminate|].
  intros Heq. injection Heq as <- <-. cbn. rewrite Hid. done.
Qed.

(** X21: with user ids unique, a user who could log in and whose
    username was changed can log in afterwards with the same e-mail and
    password, as the renamed user. *)
Theorem renaming_keeps_the_login (e e' : Env.t) users user_id new_username
    users' user' email password user token_data refresh_token :
  NoDup (User.id <$> users) →
  AuthService.authenticate_user settings e users email password
  = Ok (user, token_data, refresh_token) →
  User.id user = user_id →
  UserService.update_username users user_id new_username (Env.flushed_at e)
  = Ok (users', user') →
  User.username user' = new_username
  ∧ AuthService.authenticate_user settings e' users' email password
    = Ok (user', (AuthService.create_tokens settings e' user_id).1,
          (AuthService.create_tokens settings e' user_id).2).
Proof.
  intros Hnd (Hget & Hpw & _)%authenticate_user_Ok Hid Hupd.
  pose proof (update_username_rows _ _ _ _ _ _ Hupd) as (-> & Hactive').
  apply update_username_Ok in Hupd
    as (Hid' & Hname & found & Hfound & Hemail & Hhash & _).
  split; [done|].
  pose proof Hget as (Hin & Hmail & Hactive)%get_by_email_Some.
  rewrite <- Hid in Hfound.
  rewrite (get_by_id_found users user Hnd Hin Hactive) in Hfound.
  injection Hfound as <-.
  unfold AuthService.authenticate_user.
  assert (UserService.get_by_email
            ((λ row, if decide (User.id row = user_id) then user' else row)
             <$> users) email = Ok (Some user')) as ->.
  { unfold UserService.get_by_email in *.
    apply scalar_one_or_none_Some in Hget.
    rewrite filter_fmap_stable.
    - rewrite Hget. cbn. rewrite decide_True by done. done.
    - intros row Hrow. cbn. case_decide as Hsame; [|done].
      assert (row = user) as ->.
      { apply (NoDup_fmap_eq User.id users); [done..|congruence]. }
      rewrite Hemail, Hactive', Hactive. done. }
  cbn. rewrite Hhash, Hpw. cbn. by rewrite Hid'.
Qed.

End rename_extras.

(** ** Requests *)

Section api_extras.
Context `{UnicodeDB, JOSE, Password} (settings : Settings.t) (e : Env.t).

Local Ltac unfold_endpoints :=
  unfold Api.signup, Api.login, Api.refresh_token, Api.logout,
    Api.list_todos, Api.create_todo, Api.get_todo, Api.update_todo,
    Api.delete_todo, Api.get_current_user_profile,
    Api.update_current_user_profile, Api.quiet, mbind, result_bind.

Lemma endpoint_Ok_code db req log db' code content cookie :
  Api.endpoint settings e db req = (log, Ok (db', code, content, cookie)) →
  code = success_code req.
Proof.
  destruct req; cbn; unfold_endpoints;
    intros Hres; repeat case_match; simplify_eq; reflexivity.
Qed.

Lemma exception_handler_code exc :
  400 ≤ (Api.exception_handler e exc).1 ≤ 500.
Proof. unfold Api.exception_handler. destruct exc; cbn; lia. Qed.

(** X22: a response with [success] false leaves both tables and the
    refresh cookie as they were and has a status from 400 to 500; a
    response with [success] true has the status of its endpoint, 201 for
    signup and task creation and 200 otherwise. *)
Theorem failed_requests_change_nothing db req :
  let '(db', response) := Api.serve settings e db req in
  (APIResponse.success (Response.content response) = false →
   db' = db
   ∧ Response.cookie response = KeepCookie
   ∧ 400 ≤ Response.status_code response ≤ 500)
  ∧ (APIResponse.success (Response.content response) = true →
     Response.status_code response = success_code req).
Proof.
  unfold Api.serve.
  destruct (Api.endpoint settings e db req) as [log [[[[db' code] c] ck]|exc]]
    eqn:Hendpoint.
  - pose proof (endpoint_Ok_code _ _ _ _ _ _ _ Hendpoint) as ->.
    apply endpoint_Ok in Hendpoint as (data & -> & _). cbn.
    split; [intros; discriminate|done].
  - pose proof (exception_handler_code exc) as Hcode.
    destruct (exception_handler_content e exc) as [text Htext].
    destruct (Api.exception_handler e exc) as [code c]. cbn in *. subst c.
    cbn. split; [done|intros; discriminate].
Qed.

(** X23: when [get_current_user] refuses the bearer token, every
    endpoint behind it answers with the handler's response for that
    exception, logs no security event, and leaves tables and cookie
    alone. *)
Theorem bad_credentials_stop_the_request db req credentials exc :
  credentials_of req = Some credentials →
  Dependencies.get_current_user settings e (Db.users db) credentials
  = Raise exc →
  Api.serve settings e db req
  = (db, Response.mk _ (Api.exception_handler e exc).1
           (Api.exception_handler e exc).2 KeepCookie []).
Proof.
  intros Hcred Hgate. unfold Api.serve.
  assert (Api.endpoint settings e db req = ([], Raise exc)) as ->.
  { destruct req; cbn in Hcred; simplify_eq; cbn; unfold_endpoints;
      by rewrite Hgate. }
  by destruct (Api.exception_handler e exc).
Qed.


Lemma write_row_keeps_other_owners s todo todo' row :
  primary_key s → todo ∈ s → Todo.id todo' = Todo.id todo →
  row ∈ s → Todo.user_id row ≠ Todo.user_id todo → row ∈ write_row s todo'.
Proof.
  intros Hpk Htodo Hid Hrow Howner.
  apply (write_row_other s todo); [done..|]. congruence.
Qed.

(** X24: no request changes or removes a stored task of a user other
    than the one its bearer token resolves to. *)
Theorem requests_leave_other_users_tasks_alone db req row :
  primary_key (Db.todos db) →
  row ∈ Db.todos db →
  (∀ credentials user,
     credentials_of req = Some credentials →
     Dependencies.get_current_user settings e (Db.users db) credentials
     = Ok user →
     Todo.user_id row ≠ User.id user) →
  row ∈ Db.todos (Api.serve settings e db req).1.
Proof.
  intros Hpk Hrow Hother. unfold Api.serve.
  destruct (Api.endpoint settings e db req)
    as [log [[[[db' code] c] ck]|exc]] eqn:Hendpoint;
    [|by destruct (Api.exception_handler e exc)].
  cbn [fst].
  destruct req; cbn [Api.endpoint credentials_of] in *;
    unfold Api.signup, Api.login, Api.refresh_token, Api.logout,
      Api.list_todos, Api.create_todo, Api.get_todo, Api.update_todo,
      Api.delete_todo, Api.get_current_user_profile,
      Api.update_current_user_profile, Api.quiet, mbind, result_bind
      in Hendpoint.
  1-5, 7, 10-11: repeat case_match; simplify_eq; done.
  - destruct (Dependencies.get_current_user _ _ _ _) as [user|]; [|done].
    destruct (TodoService.create_todo _ _ _ _ _) as [[todos todo]|] eqn:Hcreate;
      [|done].
    simplify_eq. cbn.
    apply create_todo_Ok in Hcreate as (_ & -> & _).
    apply elem_of_app. by left.
  - destruct (Dependencies.get_current_user _ _ _ _) as [user|] eqn:Hgate;
      [|done].
    destruct (TodoService.update_todo _ _ _ _ _) as [[todos todo']|] eqn:Hupd;
      [|done].
    simplify_eq. cbn.
    apply update_todo_Ok in Hupd as (todo & Hget & (Hid & _) & ->).
    apply get_todo_Ok in Hget as (Hin & _ & Howner & _).
    apply (write_row_keeps_other_owners _ todo); [done..|].
    rewrite Howner. by eapply Hother.
  - destruct (Dependencies.get_current_user _ _ _ _) as [user|] eqn:Hgate;
      [|done].
    destruct (TodoService.soft_delete_todo _ _ _ _ _) as [todos|] eqn:Hdel;
      [|done].
    simplify_eq. cbn.
    apply soft_delete_todo_Ok in Hdel as (todo & todo' & Hget & -> & Hid & _).
    apply get_todo_Ok in Hget as (Hin & Hid0 & Howner & _).
    apply (write_row_keeps_other_owners _ todo); [done| done | congruence | done |].
    rewrite Howner. by eapply Hother.
Qed.

(** X25: signup and profile update never change the tasks, the task
    endpoints that write never change the users, and every other
    endpoint leaves both tables as they were. *)
Theorem each_endpoint_writes_at_most_its_own_table db req :
  let db' := (Api.serve settings e db req).1 in
  match req with
  | Signup _ | PatchMe _ _ => Db.todos db' = Db.todos db
  | PostTodo _ _ | PatchTodo _ _ _ | DeleteTodo _ _ =>
      Db.users db' = Db.users db
  | _ => db' = db
  end.
Proof.
  unfold Api.serve.
  destruct (Api.endpoint settings e db req)
    as [log [[[[db' code] c] ck]|exc]] eqn:Hendpoint;
    [|destruct (Api.exception_handler e exc); by destruct req].
  cbn [fst].
  destruct req; cbn [Api.endpoint] in *;
    unfold Api.signup, Api.login, Api.refresh_token, Api.logout,
      Api.list_todos, Api.create_todo, Api.get_todo, Api.update_todo,
      Api.delete_todo, Api.get_current_user_profile,
      Api.update_current_user_profile, Api.quiet, mbind, result_bind
      in Hendpoint;
    repeat case_match; simplify_eq; done.
Qed.


(** X26: behind the bearer token of a user, a response carries only
    tasks owned by that user or that user's profile, and never a
    token. *)
Theorem responses_carry_only_the_callers_data db req credentials user :
  credentials_of req = Some credentials →
  Dependencies.get_current_user settings e (Db.users db) credentials
  = Ok user →
  match APIResponse.data (Response.content (Api.serve settings e db req).2) with
  | Some (TodoPayload todo) => TodoResponse.user_id todo = User.id user
  | Some (PagePayload page) =>
      Forall (λ todo, TodoResponse.user_id todo = User.id user)
             (PaginatedData.items page)
  | Some (UserPayload profile) => UserResponse.id profile = User.id user
  | Some (TokenPayload _) => False
  | None => True
  end.
Proof.
  intros Hcred Hgate. unfold Api.serve.
  destruct (Api.endpoint settings e db req)
    as [log [[[[db' code] c] ck]|exc]] eqn:Hendpoint; cycle 1.
  { destruct (exception_handler_content e exc) as [text Htext].
    destruct (Api.exception_handler e exc) as [code c]. cbn in *.
    by subst c. }
  cbn [snd Response.content].
  destruct req; cbn [Api.endpoint credentials_of] in *; simplify_eq;
    unfold Api.signup, Api.login, Api.refresh_token, Api.logout,
      Api.list_todos, Api.create_todo, Api.get_todo, Api.update_todo,
      Api.delete_todo, Api.get_current_user_profile,
      Api.update_current_user_profile, Api.quiet, mbind, result_bind
      in Hendpoint;
    rewrite Hgate in Hendpoint.
  - (* logout *) by simplify_eq.
  - (* list_todos *)
    destruct (TodoService.list_todos _ _ _ _ _ _ _ _ _ _) as [pd|] eqn:Hlist;
      [|done].
    simplify_eq. cbn. apply Forall_forall. intros item Hitem.
    destruct (list_todos_items _ _ _ _ _ _ _ _ _ _ _ _ Hlist Hitem)
      as (row & _ & (Howner & _) & ->). done.
  - (* create_todo *)
    destruct (TodoService.create_todo _ _ _ _ _) as [[todos todo]|] eqn:Hcreate;
      [|done].
    simplify_eq. cbn.
    by apply create_todo_Ok in Hcreate as (_ & _ & _ & Howner & _).
  - (* get_todo *)
    destruct (TodoService.get_todo _ _ _) as [todo|] eqn:Hget; [|done].
    simplify_eq. cbn. by apply get_todo_Ok in Hget as (_ & _ & Howner & _).
  - (* update_todo *)
    destruct (TodoService.update_todo _ _ _ _ _) as [[todos todo']|] eqn:Hupd;
      [|done].
    simplify_eq. cbn.
    apply update_todo_Ok in Hupd as (todo & Hget & (_ & Howner & _) & _).
    apply get_todo_Ok in Hget as (_ & _ & Howner' & _). congruence.
  - (* delete_todo *)
    destruct (TodoService.soft_delete_todo _ _ _ _ _); [|done].
    by simplify_eq.
  - (* get_current_user_profile *) by simplify_eq.
  - (* update_current_user_profile *)
    destruct (UserUpdate.username data) as [[|c0 username]|].
    + by simplify_eq.
    + destruct (UserService.update_username _ _ _ _) as [[users user']|]
        eqn:Hupd; [|done].
      simplify_eq. cbn. by apply update_username_Ok in Hupd as (Hid & _).
    + by simplify_eq.
Qed.






End api_extras.

(** * The further properties at the sample runs *)

Section further_witnesses.
Local Existing Instance ascii_db.
Local Existing Instance plain_jose.
Local Existing Instance plain_password.

Lemma is_prefix_app (p s : str) : is_prefix p (p ++ s) = true.
Proof.
  induction p as [|a p IH]; [done|]. cbn. by rewrite N.eqb_refl, IH.
Qed.

Lemma plain_password_law (salt plain : str) :
  verify_password plain (hash_password salt plain) = true.
Proof.
  cbn [verify_password hash_password plain_password].
  rewrite (reverse_app salt).
  apply is_prefix_app.
Qed.

Lemma sample_user_ids : NoDup (User.id <$> [Sample.user]).
Proof. apply (bool_decide_unpack _). vm_compute. exact I. Qed.

Lemma sample_valid_uuid : valid_uuid Sample.alice.
Proof. vm_compute. reflexivity. Qed.

Lemma sample_first_page :
  TodoService.list_todos [Sample.todo] Sample.alice 1 10 None None None
    SortCreatedAt Desc 0
  = Ok Session.first_page.
Proof. vm_compute. reflexivity. Qed.

Lemma sample_login :
  AuthService.authenticate_user Settings.default Sample.env [Sample.user]
    (lit "Alice@Example.com") (lit "pw12345678")
  = Ok (Sample.user,
        (AuthService.create_tokens Settings.default Sample.env
           Sample.alice).1,
        (AuthService.create_tokens Settings.default Sample.env
           Sample.alice).2).
Proof. vm_compute. reflexivity. Qed.

Lemma sample_gate :
  Dependencies.get_current_user Settings.default Sample.env [Sample.user]
    Session.credentials
  = Ok Sample.user.
Proof. vm_compute. reflexivity. Qed.

Lemma created_task_is_found_witness :
  primary_key []
  ∧ TodoService.create_todo [] Sample.alice Sample.new_todo Sample.task 0
    = Ok ([Sample.todo], Sample.todo)
  ∧ TodoService.get_todo [Sample.todo] Sample.task Sample.alice
    = Ok Sample.todo.
Proof.
  assert (primary_key []) as Hpk by apply NoDup_nil_2.
  assert (TodoService.create_todo [] Sample.alice Sample.new_todo
            Sample.task 0 = Ok ([Sample.todo], Sample.todo)) as Hcreate
    by (vm_compute; reflexivity).
  destruct (created_task_is_found [] [Sample.todo] Sample.alice
              Sample.new_todo Sample.task 0 Sample.todo Hpk Hcreate)
    as [Hget _].
  split_and!; [exact Hpk|exact Hcreate|exact Hget].
Defined.

Lemma writes_leave_other_tasks_alone_witness :
  TodoService.update_todo [Sample.todo; Session.bob_todo] Sample.task
    Sample.alice Sample.retitle 5
  = Ok ([Sample.retitled; Session.bob_todo], Sample.retitled)
  ∧ 20%N ≠ Sample.task
  ∧ TodoService.get_todo [Sample.retitled; Session.bob_todo] 20%N Sample.bob
    = TodoService.get_todo [Sample.todo; Session.bob_todo] 20%N Sample.bob.
Proof.
  assert (TodoService.update_todo [Sample.todo; Session.bob_todo]
            Sample.task Sample.alice Sample.retitle 5
          = Ok ([Sample.retitled; Session.bob_todo], Sample.retitled))
    as Hupd by (vm_compute; reflexivity).
  assert (20%N ≠ Sample.task) as Hne
    by (apply (bool_decide_unpack _); vm_compute; exact I).
  split_and!; [exact Hupd|exact Hne|].
  exact (writes_leave_other_tasks_alone [Sample.todo; Session.bob_todo]
           [Sample.retitled; Session.bob_todo] Sample.task Sample.alice
           Sample.retitle 5 6 Sample.retitled 20%N Sample.bob
           (or_introl Hupd) Hne).
Defined.

Lemma listing_is_sorted_witness :
  TodoService.list_todos [Sample.todo] Sample.alice 1 10 None None None
    SortCreatedAt Desc 0
  = Ok Session.first_page
  ∧ ∃ rows,
      PaginatedData.items Session.first_page
      = TodoResponse.model_validate <$> rows
      ∧ StronglySorted (sorted_by SortCreatedAt Desc) rows.
Proof.
  split; [exact sample_first_page|].
  exact (listing_is_sorted [Sample.todo] Sample.alice 1 10 None None None
           SortCreatedAt Desc 0 Session.first_page sample_first_page).
Defined.

Lemma listing_shows_only_own_matching_tasks_witness :
  TodoService.list_todos [Sample.todo; Session.bob_todo] Sample.alice 1 10
    (Some PENDING) None None SortCreatedAt Desc 0
  = Ok Session.first_page
  ∧ Forall (λ item, TodoResponse.user_id item = Sample.alice)
           (PaginatedData.items Session.first_page).
Proof.
  assert (TodoService.list_todos [Sample.todo; Session.bob_todo]
            Sample.alice 1 10 (Some PENDING) None None SortCreatedAt Desc 0
          = Ok Session.first_page) as Hlist
    by (vm_compute; reflexivity).
  split; [exact Hlist|].
  eapply Forall_impl;
    [exact (listing_shows_only_own_matching_tasks _ _ _ _ _ _ _ _ _ _ _
              Hlist)|].
  intros item (Howner & _). exact Howner.
Defined.




Lemma issued_tokens_expire_by_the_second_witness :
  valid_uuid Sample.alice
  ∧ timegm (Jwt.access_expire Settings.default 0) < timegm 901000000
  ∧ Jwt.get_user_id_from_token Settings.default 901000000
      Session.credentials (lit "access")
    = Raise expired_error.
Proof.
  assert (timegm (Jwt.access_expire Settings.default 0) < timegm 901000000)
    as Hlate by (vm_compute; reflexivity).
  destruct (issued_tokens_expire_by_the_second Settings.default 0 0 12%N
              Sample.alice 901000000 sample_valid_uuid)
    as (_ & _ & Hexpired & _).
  split_and!; [exact sample_valid_uuid|exact Hlate|].
  exact (Hexpired Hlate (lit "access")).
Defined.


Lemma gate_rejects_tokens_of_missing_users_witness :
  NoDup (User.id <$> [Sample.user])
  ∧ valid_uuid Sample.bob
  ∧ Env.now Sample.env ≤ Jwt.access_expire Settings.default 0
  ∧ Dependencies.get_current_user Settings.default Sample.env [Sample.user]
      (Jwt.create_access_token Settings.default 0 0 Sample.bob)
    = Raise user_not_found.
Proof.
  assert (valid_uuid Sample.bob) as Hu by (vm_compute; reflexivity).
  assert (Env.now Sample.env ≤ Jwt.access_expire Settings.default 0) as Ht
    by (vm_compute; discriminate).
  assert (∀ row, row ∈ [Sample.user] → User.id row = Sample.bob →
                 User.deleted_at row ≠ None) as Hno.
  { intros row Hin%list_elem_of_singleton Hid. subst row.
    vm_compute in Hid. discriminate Hid. }
  split_and!; [exact sample_user_ids|exact Hu|exact Ht|].
  exact (gate_rejects_tokens_of_missing_users Settings.default Sample.env
           [Sample.user] 0 0 Sample.bob sample_user_ids Hu Ht Hno).
Defined.

Lemma login_needs_an_active_account_and_its_password_witness :
  is_ok (AuthService.authenticate_user Settings.default Sample.env
           [Sample.user] (lit "Alice@Example.com") (lit "pw12345678"))
  = true
  ∧ User.email Sample.user = lower (lit "Alice@Example.com")
  ∧ verify_password (lit "pw12345678") (User.password_hash Sample.user)
    = true.
Proof.
  destruct (login_needs_an_active_account_and_its_password Settings.default
              Sample.env [Sample.user] (lit "Alice@Example.com")
              (lit "pw12345678") Sample.user _ _ sample_login)
    as (_ & _ & Hemail & Hpw).
  split_and!; [vm_compute; reflexivity|exact Hemail|exact Hpw].
Defined.

Lemma login_tokens_pass_the_gate_witness :
  let tokens :=
    AuthService.create_tokens Settings.default Sample.env Sample.alice in
  NoDup (User.id <$> [Sample.user])
  ∧ Env.now Sample.env
    ≤ Jwt.access_expire Settings.default (Env.now Sample.env)
  ∧ Dependencies.get_current_user Settings.default Sample.env [Sample.user]
      (TokenData.access_token tokens.1)
    = Ok Sample.user
  ∧ Dependencies.get_refresh_token_user_id Settings.default Sample.env
      (Some tokens.2)
    = Ok Sample.alice.
Proof.
  intros tokens.
  assert (Env.now Sample.env
          ≤ Jwt.access_expire Settings.default (Env.now Sample.env)) as Ha
    by (vm_compute; discriminate).
  assert (Env.now Sample.env
          ≤ Jwt.refresh_expire Settings.default (Env.now Sample.env)) as Hr
    by (vm_compute; discriminate).
  destruct (login_tokens_pass_the_gate Settings.default Sample.env
              Sample.env [Sample.user] (lit "Alice@Example.com")
              (lit "pw12345678") Sample.user tokens.1 tokens.2
              sample_user_ids sample_login sample_valid_uuid Ha Hr)
    as [Haccess Hrefresh].
  split_and!; [exact sample_user_ids|exact Ha|exact Haccess|exact Hrefresh].
Defined.

Lemma registered_user_can_log_in_witness :
  ∃ users' user token_data refresh_token,
    AuthService.register_user Settings.default Sample.env [Sample.user]
      (lit "Bob@Example.com") (lit "bob") (lit "secret123")
    = Ok (users', (user, token_data, refresh_token))
    ∧ is_ok (AuthService.authenticate_user Settings.default Sample.env
               users' (lit "Bob@Example.com") (lit "secret123"))
      = true.
Proof.
  destruct (AuthService.register_user Settings.default Sample.env
              [Sample.user] (lit "Bob@Example.com") (lit "bob")
              (lit "secret123"))
    as [[users' [[user token_data] refresh_token]]|exc] eqn:Hreg;
    [|vm_compute in Hreg; discriminate Hreg].
  exists users', user, token_data, refresh_token. split; [reflexivity|].
  destruct (registered_user_can_log_in Settings.default Sample.env
              Sample.env [Sample.user] (lit "Bob@Example.com") (lit "bob")
              (lit "secret123") users' user token_data refresh_token
              plain_password_law Hreg)
    as (token_data' & refresh_token' & Hlogin).
  rewrite Hlogin. reflexivity.
Defined.

Lemma second_registration_conflicts_witness :
  ∃ users' user token_data refresh_token,
    AuthService.register_user Settings.default Sample.env [Sample.user]
      (lit "Bob@Example.com") (lit "bob") (lit "secret123")
    = Ok (users', (user, token_data, refresh_token))
    ∧ lower (lit "BOB@example.com") = lower (lit "Bob@Example.com")
    ∧ AuthService.register_user Settings.default Sample.env users'
        (lit "BOB@example.com") (lit "robert") (lit "other4567")
      = Raise (ConflictError (lit "Email already registered")).
Proof.
  destruct (AuthService.register_user Settings.default Sample.env
              [Sample.user] (lit "Bob@Example.com") (lit "bob")
              (lit "secret123"))
    as [[users' [[user token_data] refresh_token]]|exc] eqn:Hreg;
    [|vm_compute in Hreg; discriminate Hreg].
  exists users', user, token_data, refresh_token. split; [reflexivity|].
  assert (lower (lit "BOB@example.com") = lower (lit "Bob@Example.com"))
    as Hsame by (vm_compute; reflexivity).
  split; [exact Hsame|].
  destruct (second_registration_conflicts Settings.default Sample.env
              Sample.env [Sample.user] (lit "Bob@Example.com") (lit "bob")
              (lit "secret123") users' user token_data refresh_token
              (lit "BOB@example.com") (lit "robert") (lit "other4567")
              Hreg) as (Hemail & _).
  exact (Hemail Hsame).
Defined.

Lemma rotation_needs_an_active_user_witness :
  NoDup (User.id <$> [Sample.user])
  ∧ match AuthService.refresh_tokens Settings.default Sample.env
            [Sample.user] Sample.alice with
    | Ok (token_data, refresh_token) =>
        (∃ user, user ∈ [Sample.user] ∧ User.id user = Sample.alice
                 ∧ User.deleted_at user = None)
        ∧ (token_data, refresh_token)
          = AuthService.create_tokens Settings.default Sample.env
              Sample.alice
    | Raise exc =>
        exc = user_not_found
        ∧ ∀ row, row ∈ [Sample.user] → User.id row = Sample.alice →
                 User.deleted_at row ≠ None
    end.
Proof.
  split; [exact sample_user_ids|].
  exact (rotation_needs_an_active_user Settings.default Sample.env
           [Sample.user] Sample.alice sample_user_ids).
Defined.

Lemma renaming_keeps_the_login_witness :
  ∃ users' user',
    UserService.update_username [Sample.user] Sample.alice (lit "alicia")
      (Env.flushed_at Sample.env)
    = Ok (users', user')
    ∧ User.username user' = lit "alicia"
    ∧ is_ok (AuthService.authenticate_user Settings.default Sample.env
               users' (lit "Alice@Example.com") (lit "pw12345678"))
      = true.
Proof.
  destruct (UserService.update_username [Sample.user] Sample.alice
              (lit "alicia") (Env.flushed_at Sample.env))
    as [[users' user']|exc] eqn:Hupd;
    [|vm_compute in Hupd; discriminate Hupd].
  exists users', user'. split; [reflexivity|].
  destruct (renaming_keeps_the_login Settings.default Sample.env Sample.env
              [Sample.user] Sample.alice (lit "alicia") users' user'
              (lit "Alice@Example.com") (lit "pw12345678") Sample.user _ _
              sample_user_ids sample_login eq_refl Hupd)
    as [Hname Hlogin].
  split; [exact Hname|]. rewrite Hlogin. reflexivity.
Defined.

Lemma bad_credentials_stop_the_request_witness :
  let stale :=
    Jwt.create_access_token Settings.default (-901000000) 0 Sample.alice in
  credentials_of (DeleteTodo stale Sample.task) = Some stale
  ∧ Dependencies.get_current_user Settings.default Sample.env
      (Db.users Sample.db) stale
    = Raise (AuthenticationError
               (lit "Invalid token: Signature has expired."))
  ∧ (Api.serve Settings.default Sample.env Sample.db
       (DeleteTodo stale Sample.task)).1
    = Sample.db
  ∧ Response.status_code
      (Api.serve Settings.default Sample.env Sample.db
         (DeleteTodo stale Sample.task)).2
    = 401.
Proof.
  intros stale.
  assert (Dependencies.get_current_user Settings.default Sample.env
            (Db.users Sample.db) stale
          = Raise (AuthenticationError
                     (lit "Invalid token: Signature has expired.")))
    as Hgate by (vm_compute; reflexivity).
  pose proof (bad_credentials_stop_the_request Settings.default Sample.env
                Sample.db (DeleteTodo stale Sample.task) stale _
                eq_refl Hgate) as Hserve.
  split_and!; [reflexivity|exact Hgate|..]; rewrite Hserve; reflexivity.
Defined.

Lemma requests_leave_other_users_tasks_alone_witness :
  primary_key (Db.todos Session.db)
  ∧ Session.bob_todo ∈ Db.todos Session.db
  ∧ Todo.user_id Session.bob_todo ≠ User.id Sample.user
  ∧ Session.bob_todo
    ∈ Db.todos (Api.serve Settings.default Sample.env Session.db
                  (DeleteTodo Session.credentials 20%N)).1.
Proof.
  assert (primary_key (Db.todos Session.db)) as Hpk
    by (unfold primary_key; apply (bool_decide_unpack _); vm_compute;
        exact I).
  assert (Session.bob_todo ∈ Db.todos Session.db) as Hrow
    by (right; left).
  assert (Todo.user_id Session.bob_todo ≠ User.id Sample.user) as Hne
    by (apply (bool_decide_unpack _); vm_compute; exact I).
  assert (∀ credentials user,
            credentials_of (DeleteTodo Session.credentials 20%N)
            = Some credentials →
            Dependencies.get_current_user Settings.default Sample.env
              (Db.users Session.db) credentials = Ok user →
            Todo.user_id Session.bob_todo ≠ User.id user) as Hother.
  { intros credentials user Hcred Hgate. injection Hcred as <-.
    change (Db.users Session.db) with [Sample.user] in Hgate.
    rewrite sample_gate in Hgate. injection Hgate as <-. exact Hne. }
  split_and!; [exact Hpk|exact Hrow|exact Hne|].
  exact (requests_leave_other_users_tasks_alone Settings.default Sample.env
           Session.db (DeleteTodo Session.credentials 20%N)
           Session.bob_todo Hpk Hrow Hother).
Defined.

Lemma responses_carry_only_the_callers_data_witness :
  credentials_of (GetTodo Session.credentials Sample.task)
  = Some Session.credentials
  ∧ Dependencies.get_current_user Settings.default Sample.env
      (Db.users Session.db) Session.credentials
    = Ok Sample.user
  ∧ match APIResponse.data
            (Response.content
               (Api.serve Settings.default Sample.env Session.db
                  (GetTodo Session.credentials Sample.task)).2) with
    | Some (TodoPayload todo) =>
        TodoResponse.user_id todo = User.id Sample.user
    | Some (PagePayload page) =>
        Forall (λ todo, TodoResponse.user_id todo = User.id Sample.user)
               (PaginatedData.items page)
    | Some (UserPayload profile) =>
        UserResponse.id profile = User.id Sample.user
    | Some (TokenPayload _) => False
    | None => True
    end.
Proof.
  split_and!; [reflexivity|exact sample_gate|].
  exact (responses_carry_only_the_callers_data Settings.default Sample.env
           Session.db (GetTodo Session.credentials Sample.task)
           Session.credentials Sample.user eq_refl sample_gate).
Defined.

End further_witnesses.
